(** * The language-model session notebook, as a program over its runtime

    [lms_notebook.ipynb] holds eleven code cells.  None of them computes
    anything on its own: a cell binds session variables and hands requests to
    what lies outside the notebook -- the shell, the import machinery, the
    [transformers] and [bertviz] libraries, and the interpreter's own object
    protocols (subscription, iteration, formatting).

    The embedding follows that split.  A cell is a computation in a
    state-and-exception monad [M]; the session state holds the global
    variables, the state of the outside world, and two logs.  The outside
    world is a [Runtime]: an arbitrary function from requests to answers
    (a value or a raised exception).  Nothing is assumed about its answers,
    so every theorem below holds for whatever the libraries do.

    A run executes the code cells top to bottom from a fresh kernel and
    stops at the first cell that raises.  The file has two halves:
    definitions (the session, the cells, a stand-in runtime for concrete
    runs, the specifications), then lemmas and theorems: on the
    top-to-bottom run, on what each cell needs and assigns when cells are
    run in any order, and on where the values handed to the libraries come
    from. *)

From stdpp Require Import base option list strings gmap.

Open Scope string_scope.
Open Scope list_scope.
Open Scope Z_scope.

(** ** Values the notebook handles *)

#[local] Unset Elimination Schemes.
Inductive value : Type :=
| VNone
| VBool (b : bool)
| VInt (z : Z)
| VStr (s : string)
| VList (items : list value)      (* a list built by a comprehension *)
| VBuiltin (name : string)        (* a name of the [builtins] module *)
| VObj (id : nat).                (* any object owned by the runtime *)
#[local] Set Elimination Schemes.

(** A keyword argument of a call: [name=v], or [**mapping]. *)
Inductive kwarg : Type :=
| Kw (name : string) (v : value)
| KwUnpack (mapping : value).

(** ** Requests to the runtime

    One constructor per way a cell reaches outside its own code.  A call
    records both the global name the callee was read from ([fn]) and the
    callee itself; arguments are recorded as written, a [**mapping] left
    for the runtime to unpack. *)

Inductive request : Type :=
| RShell (cmd : string)                         (* [!cmd] *)
| RMagic (name line : string)                   (* [%name line] *)
| RImport (module : string)                     (* [from module import ...] *)
| RGetattr (obj : value) (attr : string)        (* [obj.attr] *)
| RGetitem (obj key : value)                    (* [obj[key]] *)
| RAdd (a b : value)                            (* [a + b] *)
| RCall (fn : string) (callee : value)
        (args : list value) (kwargs : list kwarg)
| RMethod (recv : value) (meth : string)
          (args : list value) (kwargs : list kwarg).

(** The commands that act on the host directly, outside the Python process. *)
Definition host_command (q : request) : bool :=
  match q with
  | RShell _ | RMagic _ _ => true
  | _ => false
  end.

(** The names the interpreter resolves when the session has not bound them:
    the built-in functions of Python 3.10 (the kernel named in the notebook's
    metadata).  The notebook reads one of them, [print], and rebinds
    another, [input], before it reads it; the exception classes and
    constants of the [builtins] module, which no cell mentions, are left
    out. *)
Definition builtins : list string :=
  [ "abs"; "aiter"; "all"; "any"; "anext"; "ascii"; "bin"; "bool";
    "breakpoint"; "bytearray"; "bytes"; "callable"; "chr"; "classmethod";
    "compile"; "complex"; "delattr"; "dict"; "dir"; "divmod"; "enumerate";
    "eval"; "exec"; "filter"; "float"; "format"; "frozenset"; "getattr";
    "globals"; "hasattr"; "hash"; "help"; "hex"; "id"; "input"; "int";
    "isinstance"; "issubclass"; "iter"; "len"; "list"; "locals"; "map";
    "max"; "memoryview"; "min"; "next"; "object"; "oct"; "open"; "ord";
    "pow"; "print"; "property"; "range"; "repr"; "reversed"; "round"; "set";
    "setattr"; "slice"; "sorted"; "staticmethod"; "str"; "sum"; "super";
    "tuple"; "type"; "vars"; "zip"; "__import__" ].

Definition is_builtin (x : string) : bool := bool_decide (x ∈ builtins).

(** ** The session *)

Section Session.

(** [World] is the state of everything outside the notebook (network, disk,
    library caches); [Exn] is what the runtime can raise. *)
Context {World Exn : Type}.

(** The runtime answers a request with an exception or a result, and moves
    the world.  Iteration and formatting have results of their own type:
    the items of the iterable, and the text of [format(v)]. *)
Class Runtime := {
  serve : request → World → (Exn + value) * World;
  iterate : value → World → (Exn + list value) * World;
  format : value → World → (Exn + string) * World
}.

Context {RT : Runtime}.

Inductive event : Type :=
| EServe (q : request) (r : Exn + value)
| EIter (v : value) (r : Exn + list value)
| EFormat (v : value) (r : Exn + string).

(** The exception an event ended with, if any. *)
Definition failure_of (ev : event) : option Exn :=
  match ev with
  | EServe _ (inl e) | EIter _ (inl e) | EFormat _ (inl e) => Some e
  | _ => None
  end.

(** Reads and writes of session variables. *)
Inductive access : Type :=
| ALoad (x : string)
| AStore (x : string).

(** Both logs are kept newest first and tag each entry with the index of
    the code cell that made it. *)
Record state : Type := mkState {
  env : gmap string value;
  world : World;
  cell : nat;
  trace : list (nat * event);
  accesses : list (nat * access)
}.

Inductive error : Type :=
| NameError (x : string)       (* raised by the interpreter itself *)
| Thrown (e : Exn).            (* raised by the runtime *)

Inductive result (A : Type) : Type :=
| Ok (a : A)
| Raised (err : error).
Global Arguments Ok {A} a.
Global Arguments Raised {A} err.

Definition M (A : Type) : Type := state → result A * state.

Definition ret {A} (a : A) : M A := fun st => (Ok a, st).

Definition bind {A B} (m : M A) (k : A → M B) : M B :=
  fun st =>
    match m st with
    | (Ok a, st') => k a st'
    | (Raised err, st') => (Raised err, st')
    end.

(** [try ... except] is definable in [M]; no cell uses it. *)
Definition try_except {A} (m : M A) (handler : error → M A) : M A :=
  fun st =>
    match m st with
    | (Ok a, st') => (Ok a, st')
    | (Raised err, st') => handler err st'
    end.

Definition record (ev : event) (w : World) (st : state) : state :=
  mkState (env st) w (cell st) ((cell st, ev) :: trace st) (accesses st).

Definition answer {A} (r : Exn + A) : result A :=
  match r with
  | inl e => Raised (Thrown e)
  | inr a => Ok a
  end.

Definition ask (q : request) : M value :=
  fun st => let '(r, w) := serve q (world st) in
            (answer r, record (EServe q r) w st).

Definition ask_iter (v : value) : M (list value) :=
  fun st => let '(r, w) := iterate v (world st) in
            (answer r, record (EIter v r) w st).

Definition ask_format (v : value) : M string :=
  fun st => let '(r, w) := format v (world st) in
            (answer r, record (EFormat v r) w st).

Definition note (a : access) (st : state) : state :=
  mkState (env st) (world st) (cell st) (trace st)
          ((cell st, a) :: accesses st).

(** Reading a name: the session's globals first, then the builtins. *)
Definition load (x : string) : M value :=
  fun st =>
    let st' := note (ALoad x) st in
    match env st !! x with
    | Some v => (Ok v, st')
    | None => if is_builtin x then (Ok (VBuiltin x), st')
              else (Raised (NameError x), st')
    end.

Definition store (x : string) (v : value) : M unit :=
  fun st =>
    (Ok tt, mkState (<[x := v]> (env st)) (world st) (cell st) (trace st)
                    ((cell st, AStore x) :: accesses st)).

End Session.

#[global] Instance access_eq_dec : EqDecision access.
Proof. solve_decision. Defined.

Global Arguments Runtime : clear implicits.
Global Arguments event : clear implicits.
Global Arguments state : clear implicits.
Global Arguments error : clear implicits.
Global Arguments result : clear implicits.
Global Arguments M : clear implicits.

(** ** Python expressions and statements

    Each combinator stands for one form of expression or statement and
    evaluates its parts in Python's order: the callee or receiver first, then
    the positional arguments, then the keyword arguments, left to right. *)

Declare Scope cell_scope.
Delimit Scope cell_scope with cell.

Notation "'let*' x ':=' m 'in' k" := (bind m (fun x => k))
  (at level 10, x name, m at level 100, k at level 200, only parsing)
  : cell_scope.
Notation "s ;; k" := (bind s (fun _ => k))
  (at level 100, k at level 200, right associativity, only parsing)
  : cell_scope.

Section Syntax.
Context {World Exn : Type} {RT : Runtime World Exn}.
Local Open Scope cell_scope.
#[local] Abbreviation M := (M World Exn).

Definition var (x : string) : M value := load x.
Definition str (s : string) : M value := ret (VStr s).
Definition int (z : Z) : M value := ret (VInt z).
Definition boolean (b : bool) : M value := ret (VBool b).

Fixpoint evals (es : list (M value)) : M (list value) :=
  match es with
  | [] => ret []
  | e :: rest => let* v := e in let* vs := evals rest in ret (v :: vs)
  end.

(** Keyword arguments as written: [name=e] or [**e]. *)
Inductive kwexpr : Type :=
| KwE (name : string) (e : M value)
| KwUnpackE (e : M value).

Fixpoint eval_kwargs (ks : list kwexpr) : M (list kwarg) :=
  match ks with
  | [] => ret []
  | KwE name e :: rest =>
      let* v := e in let* vs := eval_kwargs rest in ret (Kw name v :: vs)
  | KwUnpackE e :: rest =>
      let* v := e in let* vs := eval_kwargs rest in ret (KwUnpack v :: vs)
  end.

(** [fn(args, kwargs)], the callee read from the global name [fn]. *)
Definition call (fn : string) (args : list (M value))
           (kwargs : list kwexpr) : M value :=
  let* f := load fn in let* a := evals args in let* k := eval_kwargs kwargs in
  ask (RCall fn f a k).

(** [recv.meth(args, kwargs)]. *)
Definition method (recv : M value) (meth : string) (args : list (M value))
           (kwargs : list kwexpr) : M value :=
  let* o := recv in let* a := evals args in let* k := eval_kwargs kwargs in
  ask (RMethod o meth a k).

Definition attr (e : M value) (name : string) : M value :=
  let* o := e in ask (RGetattr o name).

Definition subscript (e key : M value) : M value :=
  let* o := e in let* k := key in ask (RGetitem o k).

(** [a + b]: concatenation on two strings, the operands' own [__add__]
    otherwise. *)
Definition add (a b : M value) : M value :=
  let* x := a in let* y := b in
  match x, y with
  | VStr s, VStr t => ret (VStr (s +:+ t))
  | _, _ => ask (RAdd x y)
  end.

(** An f-string: literal text and [{e}] fields, each field formatted. *)
Inductive fpart : Type :=
| Lit (s : string)
| Fmt (e : M value).

Fixpoint fstring_text (parts : list fpart) : M string :=
  match parts with
  | [] => ret ""
  | Lit s :: rest => let* t := fstring_text rest in ret (s +:+ t)
  | Fmt e :: rest =>
      let* v := e in let* s := ask_format v in
      let* t := fstring_text rest in ret (s +:+ t)
  end.

Definition fstring (parts : list fpart) : M value :=
  let* s := fstring_text parts in ret (VStr s).

Fixpoint for_each {A B} (body : A → M B) (items : list A) : M (list B) :=
  match items with
  | [] => ret []
  | x :: rest =>
      let* y := body x in let* ys := for_each body rest in ret (y :: ys)
  end.

(** [[body for x in src]]; the loop variable is local to the
    comprehension, so it is bound here and not in the session. *)
Definition listcomp (src : M value) (body : value → M value) : M value :=
  let* v := src in let* items := ask_iter v in let* vs := for_each body items in
  ret (VList vs).

(** [x = e] *)
Definition assign (x : string) (e : M value) : M unit :=
  let* v := e in store x v.

(** An expression statement that is not the last of its cell. *)
Definition expr (e : M value) : M unit := let* _ := e in ret tt.

(** [from module import n1, n2, ...] *)
Fixpoint bind_names (pkg : value) (names : list string) : M unit :=
  match names with
  | [] => ret tt
  | n :: rest =>
      let* v := ask (RGetattr pkg n) in store n v ;; bind_names pkg rest
  end.

Definition import_from (module : string) (names : list string) : M unit :=
  let* pkg := ask (RImport module) in bind_names pkg names.

Definition shell (cmd : string) : M value := ask (RShell cmd).
Definition magic (name line : string) : M value := ask (RMagic name line).

End Syntax.

Notation "x ::= e" := (assign x e) (at level 90, no associativity) : cell_scope.

(** ** The code cells, in the order of the notebook

    Each definition follows its cell line by line; the lines are those of
    [lms_notebook.ipynb].  A cell yields the value of its last statement
    when that is an expression (what the front end shows as the cell's
    output), and [None] otherwise.  Markdown cells do nothing. *)

Section Notebook.
Context {World Exn : Type} {RT : Runtime World Exn}.
Local Open Scope cell_scope.
#[local] Abbreviation M := (M World Exn).

(** Cell 0, lines 21-23. *)
Definition cell_install : M value :=
  expr (shell "wget https://raw.githubusercontent.com/wrmthorne/LMs_Session/main/requirements.txt") ;;
  magic "pip" "install -r requirements.txt".

(** Cell 1, lines 32-41. *)
Definition cell_imports : M value :=
  import_from "transformers"
    ["AutoModel"; "AutoTokenizer"; "pipeline"; "utils";
     "T5ForConditionalGeneration"] ;;
  import_from "bertviz" ["model_view"; "head_view"] ;;
  import_from "bertviz.neuron_view" ["show"] ;;
  import_from "bertviz.transformers_neuron_view"
    ["BertModel"; "BertTokenizer"] ;;
  expr (method (attr (var "utils") "logging") "set_verbosity_error" [] []) ;;
  "model_type" ::= str "bert" ;;
  "model_version" ::= str "bert-base-cased" ;;
  ret VNone.

(** Cell 2, lines 68-77. *)
Definition cell_tokenise : M value :=
  "tokenizer" ::=
    method (var "AutoTokenizer") "from_pretrained" [var "model_version"] [] ;;
  "test_string" ::= str "WANDISCO" ;;
  "token_ids" ::= method (var "tokenizer") "encode" [var "test_string"] [] ;;
  expr (call "print" [fstring [Lit "IDS: "; Fmt (var "token_ids")]] []) ;;
  "tokens" ::=
    method (var "tokenizer") "convert_ids_to_tokens" [var "token_ids"] [] ;;
  call "print" [fstring [Lit "Tokens: "; Fmt (var "tokens")]] [].

(** Cell 3, lines 96-99. *)
Definition cell_unmask : M value :=
  "unmasker" ::=
    call "pipeline" [str "fill-mask"] [KwE "model" (var "model_version")] ;;
  "test_string" ::= str "WANDISCO is a [MASK] company" ;;
  call "unmasker" [var "test_string"] [].

(** [[pred["token_str"] for pred in preds]], lines 121 and 122. *)
Definition token_strs (preds : string) : M value :=
  listcomp (var preds) (fun pred => subscript (ret pred) (str "token_str")).

(** Cell 4, lines 118-122. *)
Definition cell_bias : M value :=
  "male_preds" ::= call "unmasker" [str "The man worked as a [MASK]."] [] ;;
  "female_preds" ::= call "unmasker" [str "The woman worked as a [MASK]."] [] ;;
  expr (call "print"
          [fstring [Lit "Male predictions: "; Fmt (token_strs "male_preds")]]
          []) ;;
  call "print"
    [fstring [Lit "Female predictions: "; Fmt (token_strs "female_preds")]]
    [].

(** Cell 5, lines 149-153. *)
Definition cell_neuron_view : M value :=
  "sentence_a" ::= str "The rabbit ran up the hill and the fox followed" ;;
  "bert_model" ::=
    method (var "BertModel") "from_pretrained" [var "model_version"]
      [KwE "output_attentions" (boolean true)] ;;
  "bert_tokenizer" ::=
    method (var "BertTokenizer") "from_pretrained" [var "model_version"]
      [KwE "do_lower_case" (boolean false)] ;;
  call "show"
    [var "bert_model"; var "model_type"; var "bert_tokenizer";
     var "sentence_a"]
    [KwE "layer" (int 2); KwE "head" (int 0)].

(** Cell 6, lines 170-178. *)
Definition cell_model_view : M value :=
  "model" ::=
    method (var "AutoModel") "from_pretrained" [var "model_version"]
      [KwE "output_attentions" (boolean true)] ;;
  "tokenizer" ::=
    method (var "AutoTokenizer") "from_pretrained" [var "model_version"] [] ;;
  "inputs" ::=
    method (var "tokenizer") "encode" [var "sentence_a"]
      [KwE "return_tensors" (str "pt")] ;;
  "outputs" ::= call "model" [var "inputs"] [] ;;
  "attention" ::= subscript (var "outputs") (int (-1)) ;;
  "tokens" ::=
    method (var "tokenizer") "convert_ids_to_tokens"
      [subscript (var "inputs") (int 0)] [] ;;
  call "model_view" [var "attention"; var "tokens"] [].

(** Cell 7, lines 197-205. *)
Definition cell_two_sentences : M value :=
  "sentence_b" ::=
    str "The rabbit ran up the hill and the fox did not follow" ;;
  "inputs" ::=
    method (var "tokenizer") "encode" [var "sentence_a"; var "sentence_b"]
      [KwE "return_tensors" (str "pt")] ;;
  "outputs" ::= call "model" [var "inputs"] [] ;;
  "attention" ::= subscript (var "outputs") (int (-1)) ;;
  "tokens" ::=
    method (var "tokenizer") "convert_ids_to_tokens"
      [subscript (var "inputs") (int 0)] [] ;;
  expr (call "print" [method (str " ") "join" [var "tokens"] []] []) ;;
  call "model_view" [var "attention"; var "tokens"] [].

(** Cell 8, lines 232-239. *)
Definition cell_translate : M value :=
  "t5_model" ::=
    method (var "T5ForConditionalGeneration") "from_pretrained"
      [str "t5-small"] [KwE "output_attentions" (boolean true)] ;;
  "t5_tokenizer" ::=
    method (var "AutoTokenizer") "from_pretrained" [str "t5-small"]
      [KwE "model_max_length" (int 512)] ;;
  "input" ::=
    call "t5_tokenizer"
      [str "translate English to German: I flew to Germany."]
      [KwE "return_tensors" (str "pt")] ;;
  "output_ids" ::=
    method (var "t5_model") "generate" []
      [KwUnpackE (var "input"); KwE "max_length" (int 512)] ;;
  "output_tokens" ::=
    method (var "t5_tokenizer") "batch_decode" [var "output_ids"] [] ;;
  var "output_tokens".

(** Cell 9, lines 264-271. *)
Definition cell_summarise : M value :=
  "prompt" ::= str "summarize:" ;;
  "prefix" ::=
    str "This is a long story about the rabbit and the fox. The rabbit ran up the hill to escape the fox. One time the fox followed. The other time, it did not." ;;
  "input" ::=
    call "t5_tokenizer" [add (add (var "prompt") (str " ")) (var "prefix")]
      [KwE "return_tensors" (str "pt")] ;;
  "output_ids" ::=
    method (var "t5_model") "generate" []
      [KwUnpackE (var "input"); KwE "max_length" (int 512)] ;;
  "output_tokens" ::=
    method (var "t5_tokenizer") "batch_decode" [var "output_ids"] [] ;;
  var "output_tokens".

(** Cell 10, lines 288-302. *)
Definition cell_t5_attention : M value :=
  "encoder_input_ids" ::=
    attr (call "t5_tokenizer"
            [str "translate English to German: I flew to Germany."]
            [KwE "return_tensors" (str "pt");
             KwE "add_special_tokens" (boolean true)])
         "input_ids" ;;
  "decoder_input_ids" ::=
    attr (call "t5_tokenizer" []
            [KwE "text_target" (str "Ich flog nach Deutschland.");
             KwE "return_tensors" (str "pt");
             KwE "add_special_tokens" (boolean true)])
         "input_ids" ;;
  "outputs" ::=
    call "t5_model" []
      [KwE "input_ids" (var "encoder_input_ids");
       KwE "decoder_input_ids" (var "decoder_input_ids")] ;;
  "encoder_text" ::=
    method (var "t5_tokenizer") "convert_ids_to_tokens"
      [subscript (var "encoder_input_ids") (int 0)] [] ;;
  "decoder_text" ::=
    method (var "t5_tokenizer") "convert_ids_to_tokens"
      [subscript (var "decoder_input_ids") (int 0)] [] ;;
  call "model_view" []
    [KwE "encoder_attention" (attr (var "outputs") "encoder_attentions");
     KwE "decoder_attention" (attr (var "outputs") "decoder_attentions");
     KwE "cross_attention" (attr (var "outputs") "cross_attentions");
     KwE "encoder_tokens" (var "encoder_text");
     KwE "decoder_tokens" (var "decoder_text")].

Definition notebook : list (M value) :=
  [ cell_install; cell_imports; cell_tokenise; cell_unmask; cell_bias;
    cell_neuron_view; cell_model_view; cell_two_sentences; cell_translate;
    cell_summarise; cell_t5_attention ].

(** Running cell number [i]: its log entries carry [i]. *)
Definition in_cell (i : nat) (c : M value) : M value :=
  fun st => c (mkState (env st) (world st) i (trace st) (accesses st)).

(** Run the cells top to bottom from cell number [i]; the first cell that
    raises stops the run.  The result lists the cells' outputs. *)
Fixpoint run_from (i : nat) (cells : list (M value)) : M (list value) :=
  match cells with
  | [] => ret []
  | c :: rest =>
      let* v := in_cell i c in let* vs := run_from (S i) rest in ret (v :: vs)
  end.

(** A fresh kernel: nothing is bound, nothing has been logged. *)
Definition fresh_kernel (w : World) : state World Exn :=
  mkState ∅ w 0%nat [] [].

Definition run_all (w : World) : result Exn (list value) * state World Exn :=
  run_from 0 notebook (fresh_kernel w).

End Notebook.

(** ** A stand-in runtime for concrete runs

    [Host] answers every request with a fresh object, lists two items for
    every iteration, and saves what [wget] downloads under the last
    component of its URL, as the tool does.  With [budget = Some n] the
    request after the first [n] raises.  It serves to exhibit concrete
    runs; the theorems that quantify over the runtime do not depend on
    it. *)

Module Host.

Record host : Type := mkHost {
  next_id : nat;
  budget : option nat;
  disk : list string          (* files of the working directory *)
}.

Fixpoint last_component (s acc : string) : string :=
  match s with
  | EmptyString => acc
  | String c rest =>
      if Ascii.eqb c (Ascii.ascii_of_nat 47) then last_component rest ""
      else last_component rest (acc +:+ String c "")
  end.

Definition wget_target (cmd : string) : option string :=
  if String.prefix "wget " cmd
  then Some (last_component (String.substring 5 (String.length cmd - 5) cmd) "")
  else None.

Definition spend (h : host) : option host :=
  match budget h with
  | Some O => None
  | Some (S n) => Some (mkHost (next_id h) (Some n) (disk h))
  | None => Some h
  end.

Definition fresh_obj (h : host) : value * host :=
  (VObj (next_id h), mkHost (S (next_id h)) (budget h) (disk h)).

Definition serve_host (q : request) (h : host) : (string + value) * host :=
  match spend h with
  | None => (inl "RuntimeError", h)
  | Some h =>
      match q with
      | RShell cmd =>
          match wget_target cmd with
          | Some f =>
              (inr (VInt 0), mkHost (next_id h) (budget h) (f :: disk h))
          | None => (inr (VInt 0), h)
          end
      | RMagic _ _ => (inr VNone, h)
      | RCall "print" _ _ _ => (inr VNone, h)
      | _ => let '(o, h) := fresh_obj h in (inr o, h)
      end
  end.

Definition iterate_host (v : value) (h : host) : (string + list value) * host :=
  match spend h with
  | None => (inl "RuntimeError", h)
  | Some h =>
      let '(a, h) := fresh_obj h in
      let '(b, h) := fresh_obj h in
      (inr [a; b], h)
  end.

Definition format_host (v : value) (h : host) : (string + string) * host :=
  match spend h with
  | None => (inl "RuntimeError", h)
  | Some h => (inr "<object>", h)
  end.

#[export] Instance runtime : Runtime host string :=
  {| serve := serve_host; iterate := iterate_host; format := format_host |}.

(** A host with an empty working directory. *)
Definition clean (b : option nat) : host := mkHost 0 b [].

End Host.

(** The top-to-bottom run on the stand-in host, for concrete instances. *)
Definition demo_run : result string (list value) * state Host.host string :=
  run_all (RT := Host.runtime) (Host.clean None).

(** * Specifications *)

Section Vocabulary.
Context {World Exn : Type} {RT : Runtime World Exn}.
#[local] Abbreviation M := (M World Exn).
#[local] Abbreviation state := (state World Exn).
#[local] Abbreviation entry := (nat * event Exn)%type.

(** ** Weakest preconditions

    [M] is a total function, so [wp m K F st] simply says where the run of
    [m] from [st] ends: in [K] when it returns, in [F] when it raises. *)
Definition wp {A} (m : M A) (K : A → state → Prop)
           (F : error Exn → state → Prop) (st : state) : Prop :=
  match m st with
  | (Ok a, st') => K a st'
  | (Raised err, st') => F err st'
  end.

Definition wp_answer {A} (r : Exn + A) (K : A → state → Prop)
           (F : error Exn → state → Prop) (st : state) : Prop :=
  match r with
  | inl e => F (Thrown e) st
  | inr a => K a st
  end.

(** A computation is [steady] when it only talks to the runtime: it leaves
    the session variables and the access log alone, adds events that all
    satisfy [P], and never raises [NameError]. *)
Definition steady (P : event Exn → Prop) {A} (m : M A) : Prop :=
  ∀ E w c t a, ∃ seg w',
    (m (mkState E w c t a)).2 = mkState E w' c (seg ++ t) a ∧
    Forall (fun ce : entry => ce.1 = c ∧ P ce.2) seg ∧
    ∀ x, (m (mkState E w c t a)).1 ≠ Raised (NameError x).

(** The requests of a comprehension's body in [cell_bias]. *)
Definition plucks (ev : event Exn) : Prop :=
  ∃ o r, ev = EServe (RGetitem o (VStr "token_str")) r.

(** A property of every entry of a log, given the entries before it (logs
    are newest first, so "before" is the tail). *)
Fixpoint each_with_past {A} (P : list A → A → Prop) (log : list A) : Prop :=
  match log with
  | [] => True
  | x :: past => P past x ∧ each_with_past P past
  end.

(** ** Propagation of failures *)

Definition succeeded (ce : entry) : Prop := failure_of ce.2 = None.

(** How a computation may end, given the events [seg] it added: when it
    raises what the runtime raised, the failed request is its last event and
    its exception is the one raised; otherwise no request failed. *)
Definition ends_as {A} (r : result Exn A) (seg : list entry) : Prop :=
  match r with
  | Raised (Thrown e) =>
      ∃ ce rest, seg = ce :: rest ∧ failure_of ce.2 = Some e ∧
                 Forall succeeded rest
  | _ => Forall succeeded seg
  end.

Definition propagates {A} (m : M A) : Prop :=
  ∀ st, ∃ seg, trace (m st).2 = seg ++ trace st ∧ ends_as (m st).1 seg.

(** ** Where the arguments of a request come from *)

(** An earlier request [q] returned [v]. *)
Definition returned (past : list entry) (q : request) (v : value) : Prop :=
  ∃ c, (c, EServe q (inr v)) ∈ past.

(** [m] was loaded by [from_pretrained(..., output_attentions=True)]. *)
Definition attention_model (past : list entry) (m : value) : Prop :=
  ∃ cls args kw,
    returned past (RMethod cls "from_pretrained" args kw) m ∧
    Kw "output_attentions" (VBool true) ∈ kw.

(** [model_view(attention, tokens)]: [attention] is [outputs[-1]] of a
    forward pass of a model loaded with attentions. *)
Definition bert_view (past : list entry) (args : list value)
           (kw : list kwarg) : Prop :=
  ∃ att toks outs fn m inp,
    args = [att; toks] ∧ kw = [] ∧
    returned past (RGetitem outs (VInt (-1))) att ∧
    returned past (RCall fn m [inp] []) outs ∧
    attention_model past m.

(** [model_view(encoder_attention=..., ...)]: the three attention
    structures are fields of the output of one forward pass of a model
    loaded with attentions. *)
Definition t5_view (past : list entry) (args : list value)
           (kw : list kwarg) : Prop :=
  ∃ ea da ca et dt outs fn m fkw,
    args = [] ∧
    kw = [Kw "encoder_attention" ea; Kw "decoder_attention" da;
          Kw "cross_attention" ca; Kw "encoder_tokens" et;
          Kw "decoder_tokens" dt] ∧
    returned past (RGetattr outs "encoder_attentions") ea ∧
    returned past (RGetattr outs "decoder_attentions") da ∧
    returned past (RGetattr outs "cross_attentions") ca ∧
    returned past (RCall fn m [] fkw) outs ∧
    attention_model past m.

Definition attention_sourced (past : list entry) (ev : event Exn) : Prop :=
  match ev with
  | EServe (RCall fn _ args kw) _ =>
      (fn = "show" → ∃ m rest, args = m :: rest ∧ attention_model past m) ∧
      (fn = "model_view" → bert_view past args kw ∨ t5_view past args kw)
  | _ => True
  end.

(** [toks] is [convert_ids_to_tokens(inp[0])]. *)
Definition tokens_of (past : list entry) (inp toks : value) : Prop :=
  ∃ tk ids,
    returned past (RMethod tk "convert_ids_to_tokens" [ids] []) toks ∧
    returned past (RGetitem inp (VInt 0)) ids.

(** The token labels of a [model_view] call come from the very ids that
    went through the forward pass whose attentions are shown. *)
Definition labels_match (past : list entry) (ev : event Exn) : Prop :=
  match ev with
  | EServe (RCall fn _ args kw) _ =>
      fn = "model_view" →
      (∃ att toks outs mfn m inp,
          args = [att; toks] ∧
          returned past (RGetitem outs (VInt (-1))) att ∧
          returned past (RCall mfn m [inp] []) outs ∧
          tokens_of past inp toks)
      ∨
      (∃ ea da ca et dt outs mfn m enc dec,
          kw = [Kw "encoder_attention" ea; Kw "decoder_attention" da;
                Kw "cross_attention" ca; Kw "encoder_tokens" et;
                Kw "decoder_tokens" dt] ∧
          returned past (RGetattr outs "encoder_attentions") ea ∧
          returned past (RGetattr outs "decoder_attentions") da ∧
          returned past (RGetattr outs "cross_attentions") ca ∧
          returned past
            (RCall mfn m [] [Kw "input_ids" enc; Kw "decoder_input_ids" dec])
            outs ∧
          tokens_of past enc et ∧ tokens_of past dec dt)
  | _ => True
  end.

End Vocabulary.

Section Claims.
Context {Exn : Type}.
#[local] Abbreviation entry := (nat * event Exn)%type.

(** ** Text generation *)

Definition translate_prompt : string :=
  "translate English to German: I flew to Germany.".

Definition summarise_prompt : string :=
  "summarize: This is a long story about the rabbit and the fox. The rabbit ran up the hill to escape the fox. One time the fox followed. The other time, it did not.".

Definition prompts : list string := [translate_prompt; summarise_prompt].

Definition task_prefixes : list string :=
  ["translate English to German: "; "summarize: "].

(** A [generate] call as the notebook writes it: the unpacked encoding of a
    prompt, and [max_length=512]. *)
Definition generation_as_written (past : list entry) (ev : event Exn) : Prop :=
  match ev with
  | EServe (RMethod _ meth args kw) _ =>
      meth = "generate" →
      ∃ enc tk p,
        args = [] ∧ kw = [KwUnpack enc; Kw "max_length" (VInt 512)] ∧
        returned past
          (RCall "t5_tokenizer" tk [VStr p] [Kw "return_tensors" (VStr "pt")])
          enc ∧
        p ∈ prompts
  | _ => True
  end.

(** The claim as stated: no [generate] call names a parameter of its own. *)
Definition no_decoding_parameters (log : list entry) : Prop :=
  ∀ c recv args kw r name v,
    (c, EServe (RMethod recv "generate" args kw) r) ∈ log →
    Kw name v ∉ kw.

(** ** Effects on the host *)

Definition wget_command : string :=
  "wget https://raw.githubusercontent.com/wrmthorne/LMs_Session/main/requirements.txt".

Definition install_commands : list request :=
  [RShell wget_command; RMagic "pip" "install -r requirements.txt"].

(** A command to the host comes from the install cell and is one of its two. *)
Definition host_commands_in_install (ce : entry) : Prop :=
  match ce.2 with
  | EServe q _ =>
      host_command q = true → ce.1 = 0%nat ∧ q ∈ install_commands
  | _ => True
  end.

(** The claim as stated: no step acts on the host directly. *)
Definition no_host_command (log : list entry) : Prop :=
  ∀ c q r, (c, EServe q r) ∈ log → host_command q = false.

(** ** What every event of a run satisfies *)

Definition wellformed (past : list entry) (ce : entry) : Prop :=
  generation_as_written past ce.2 ∧ host_commands_in_install ce ∧
  attention_sourced past ce.2 ∧ labels_match past ce.2.

End Claims.

(** ** Session variables *)

Definition handles : list string :=
  ["tokenizer"; "unmasker"; "bert_model"; "bert_tokenizer"; "model";
   "t5_model"; "t5_tokenizer"].

(** The claim as stated: a handle a cell reads was assigned by a cell
    strictly above it. *)
Definition assigned_strictly_above (log : list (nat * access)) : Prop :=
  ∀ c x, x ∈ handles → (c, ALoad x) ∈ log →
         ∃ c', (c' < c)%nat ∧ (c', AStore x) ∈ log.

(** A name that is read was assigned before, in the same cell or above;
    [print] is the one name the notebook takes from the builtins. *)
Definition bound_before_use (before : list (nat * access))
           (ca : nat * access) : Prop :=
  match ca.2 with
  | ALoad x =>
      x = "print" ∨ ∃ c', (c' ≤ ca.1)%nat ∧ (c', AStore x) ∈ before
  | AStore _ => True
  end.

Definition stored_by (x : string) (c : nat) (e : nat * access) : bool :=
  match e with
  | (c', AStore y) => String.eqb x y && (c' <=? c)%nat
  | _ => false
  end.

(** The same, as a check that runs. *)
Fixpoint bound_before_use_b (log : list (nat * access)) : bool :=
  match log with
  | [] => true
  | (c, ALoad x) :: before =>
      (String.eqb x "print" || existsb (stored_by x c) before)
      && bound_before_use_b before
  | _ :: before => bound_before_use_b before
  end.

(** What holds of the session after any number of steps of a run. *)
Definition sound_session {World Exn} (st : state World Exn) : Prop :=
  each_with_past wellformed (trace st) ∧
  bound_before_use_b (accesses st) = true.


(** * Running cells in any order

    A front end runs whichever cell the user picks, on the session as it
    stands.  [footprints] tabulates, one row per code cell, the session
    variables the cell reads before it has assigned them itself, and the
    variables it assigns; the theorems on footprints show the table
    exact. *)

Definition footprints : list (list string * list string) :=
  [ (* 0 *) ([], []);
    (* 1 *) ([],
             ["AutoModel"; "AutoTokenizer"; "pipeline"; "utils";
              "T5ForConditionalGeneration"; "model_view"; "head_view"; "show";
              "BertModel"; "BertTokenizer"; "model_type"; "model_version"]);
    (* 2 *) (["AutoTokenizer"; "model_version"],
             ["tokenizer"; "test_string"; "token_ids"; "tokens"]);
    (* 3 *) (["pipeline"; "model_version"], ["unmasker"; "test_string"]);
    (* 4 *) (["unmasker"], ["male_preds"; "female_preds"]);
    (* 5 *) (["BertModel"; "model_version"; "BertTokenizer"; "show";
              "model_type"],
             ["sentence_a"; "bert_model"; "bert_tokenizer"]);
    (* 6 *) (["AutoModel"; "model_version"; "AutoTokenizer"; "sentence_a";
              "model_view"],
             ["model"; "tokenizer"; "inputs"; "outputs"; "attention";
              "tokens"]);
    (* 7 *) (["tokenizer"; "sentence_a"; "model"; "model_view"],
             ["sentence_b"; "inputs"; "outputs"; "attention"; "tokens"]);
    (* 8 *) (["T5ForConditionalGeneration"; "AutoTokenizer"],
             ["t5_model"; "t5_tokenizer"; "input"; "output_ids";
              "output_tokens"]);
    (* 9 *) (["t5_tokenizer"; "t5_model"],
             ["prompt"; "prefix"; "input"; "output_ids"; "output_tokens"]);
    (* 10 *) (["t5_tokenizer"; "t5_model"; "model_view"],
              ["encoder_input_ids"; "decoder_input_ids"; "outputs";
               "encoder_text"; "decoder_text"]) ].

Definition needs (i : nat) : list string :=
  (default ([], []) (footprints !! i)).1.

Definition writes (i : nat) : list string :=
  (default ([], []) (footprints !! i)).2.

(** The names cells run in [order] assign, and whether every cell of
    [order] finds what it needs among [known] and what the cells before it
    assigned. *)
Definition assigned (order : list nat) : list string :=
  flat_map writes order.

Fixpoint runnable (known : list string) (order : list nat) : bool :=
  match order with
  | [] => true
  | i :: rest =>
      forallb (fun x => bool_decide (x ∈ known)) (needs i)
      && runnable (writes i ++ known) rest
  end.

Section Order.
Context {World Exn : Type} {RT : Runtime World Exn}.
Local Open Scope cell_scope.

(** Run the cells numbered in [order] one after the other, as "run
    selected cells" does: a number that names no cell is skipped, the first
    cell that raises stops the run. *)
Fixpoint run_cells (order : list nat) : M World Exn (list value) :=
  match order with
  | [] => ret []
  | i :: rest =>
      match notebook !! i with
      | Some c =>
          let* v := in_cell i c in let* vs := run_cells rest in ret (v :: vs)
      | None => run_cells rest
      end
  end.

(** Every name of [X] is a session variable. *)
Definition bound (X : list string) (st : state World Exn) : Prop :=
  Forall (fun x => is_Some (env st !! x)) X.

(** [st'] has the variables of [st], those of [X] apart. *)
Definition same_outside (X : list string) (st st' : state World Exn) : Prop :=
  ∀ x, x ∉ X → env st' !! x = env st !! x.

(** No variable of [st] is unbound in [st']. *)
Definition nothing_unbound (st st' : state World Exn) : Prop :=
  ∀ x, is_Some (env st !! x) → is_Some (env st' !! x).

(** What running cell [i] does to the session variables, from any state:
    - it changes no variable outside [writes i] and unbinds none, whether
      it returns or raises;
    - when it returns, [writes i] are bound and [needs i] were;
    - when it stops on an unbound name, that name is one of [needs i]. *)
Definition keeps_footprint (i : nat) (c : M World Exn value) : Prop :=
  ∀ st,
    wp (in_cell i c)
       (fun _ st' =>
          (same_outside (writes i) st st' ∧ nothing_unbound st st') ∧
          bound (writes i) st' ∧ bound (needs i) st)
       (fun err st' =>
          (same_outside (writes i) st st' ∧ nothing_unbound st st') ∧
          ∀ x, err = NameError x → x ∈ needs i ∧ env st !! x = None)
       st.

(** ** The shell around a cell

    The interactive shell keeps variables of its own among the session's:
    the input and output history ([In], [Out], [_], [__], [_3], [_i],
    [_i3], ...) and the exit code of the last [!] command ([_exit_code]).
    It rebinds them when it runs a cell; the notebook's text does not say
    to what. *)
Definition shell_name (x : string) : bool :=
  String.prefix "_" x || String.eqb x "In" || String.eqb x "Out".

(** A change of the session that touches the shell's variables only. *)
Definition shell_only (f : state World Exn → state World Exn) : Prop :=
  ∀ st x, shell_name x = false → env (f st) !! x = env st !! x.

(** Cell [i] as the shell runs it: [before] is what the shell does to the
    session when it takes the cell's input, [after] what it does given how
    the cell ended (the value shown, the exception raised). *)
Definition in_shell (before : state World Exn → state World Exn)
           (after : result Exn value → state World Exn → state World Exn)
           (i : nat) (c : M World Exn value) : M World Exn value :=
  fun st => let '(r, st') := in_cell i c (before st) in (r, after r st').

(** An instance: the input's text goes to [_i], a value that is shown
    (one that is not [None]) to [_]. *)
Definition record_input (text : string)
           (st : state World Exn) : state World Exn :=
  mkState (<["_i" := VStr text]> (env st)) (world st) (cell st) (trace st)
          (accesses st).

Definition show_output (r : result Exn value)
           (st : state World Exn) : state World Exn :=
  match r with
  | Ok VNone | Raised _ => st
  | Ok v =>
      mkState (<["_" := v]> (env st)) (world st) (cell st) (trace st)
              (accesses st)
  end.

End Order.

(** A session on the stand-in host with the variables [E], for concrete
    instances. *)
Definition session_with (E : gmap string value) : state Host.host string :=
  mkState E (Host.clean None) 0%nat [] [].

(** Session variables as a list of assignments, newest first, over the
    variables [E] the session started with. *)
Fixpoint find_in (l : list (string * value)) (x : string) : option value :=
  match l with
  | [] => None
  | (k, v) :: rest => if String.eqb k x then Some v else find_in rest x
  end.

Definition overlay (l : list (string * value))
           (E : gmap string value) : gmap string value :=
  foldr (fun kv m => <[kv.1 := kv.2]> m) E l.

(** * Where models, tokenizers and functions come from *)

Section Provenance.
Context {Exn : Type}.
#[local] Abbreviation entry := (nat * event Exn)%type.

(** [v] is [module.name], as a [from module import name] got it. *)
Definition imported (past : list entry) (module name : string)
           (v : value) : Prop :=
  ∃ pkg, returned past (RGetattr pkg name) v ∧
         returned past (RImport module) pkg.

(** [h] is [cls.from_pretrained(ckpt, ...)] for the class [module.cls]. *)
Definition loaded_by (past : list entry) (module cls ckpt : string)
           (h : value) : Prop :=
  ∃ c kw, returned past (RMethod c "from_pretrained" [VStr ckpt] kw) h ∧
          imported past module cls c.

(** The tokenizer [tk] made [enc]: [tk.encode(...)], [tk(...)] or
    [tk(...).input_ids]. *)
Definition encoded_by (past : list entry) (tk enc : value) : Prop :=
  (∃ args kw, returned past (RMethod tk "encode" args kw) enc) ∨
  (∃ args kw, returned past (RCall "t5_tokenizer" tk args kw) enc) ∨
  (∃ batch args kw,
      returned past (RGetattr batch "input_ids") enc ∧
      returned past (RCall "t5_tokenizer" tk args kw) batch).

(** The model classes the notebook loads, each with its library and the
    tokenizer class it goes with. *)
Definition pairings : list (string * string * string) :=
  [ ("bertviz.transformers_neuron_view", "BertModel", "BertTokenizer");
    ("transformers", "AutoModel", "AutoTokenizer");
    ("transformers", "T5ForConditionalGeneration", "AutoTokenizer") ].

(** Model [m] and tokenizer [tk] were loaded from one checkpoint, by a
    model class and the tokenizer class of the same library. *)
Definition paired (past : list entry) (m tk : value) : Prop :=
  ∃ lib mc tc ckpt,
    loaded_by past lib mc ckpt m ∧ loaded_by past lib tc ckpt tk ∧
    (lib, mc, tc) ∈ pairings.

(** Whatever text reaches a model went through the tokenizer of that
    model's checkpoint: the neuron view, the forward passes of BERT and T5,
    and [generate]. *)
Definition model_meets_its_tokenizer (past : list entry)
           (ev : event Exn) : Prop :=
  match ev with
  | EServe (RCall fn f args kw) _ =>
      (fn = "show" →
       ∃ m ty tk s, args = [m; ty; tk; s] ∧ paired past m tk) ∧
      (fn = "model" →
       ∃ inp tk, args = [inp] ∧ kw = [] ∧
                 encoded_by past tk inp ∧ paired past f tk) ∧
      (fn = "t5_model" →
       ∃ enc dec tk,
         args = [] ∧ kw = [Kw "input_ids" enc; Kw "decoder_input_ids" dec] ∧
         encoded_by past tk enc ∧ encoded_by past tk dec ∧ paired past f tk)
  | EServe (RMethod m meth args kw) _ =>
      meth = "generate" →
      ∃ enc n tk, args = [] ∧ kw = [KwUnpack enc; n] ∧
                  encoded_by past tk enc ∧ paired past m tk
  | _ => True
  end.

(** Ids are turned back into text by the tokenizer that made them:
    [convert_ids_to_tokens] gets what its own receiver encoded (or the
    first row of it), [batch_decode] what [generate] made of its own
    receiver's encoding. *)
Definition decoded_by_encoder (past : list entry) (ev : event Exn) : Prop :=
  match ev with
  | EServe (RMethod tk meth args kw) _ =>
      (meth = "convert_ids_to_tokens" →
       ∃ ids, args = [ids] ∧ kw = [] ∧
         (encoded_by past tk ids ∨
          ∃ enc, returned past (RGetitem enc (VInt 0)) ids ∧
                 encoded_by past tk enc)) ∧
      (meth = "batch_decode" →
       ∃ out m enc n,
         args = [out] ∧ kw = [] ∧
         returned past (RMethod m "generate" [] [KwUnpack enc; n]) out ∧
         encoded_by past tk enc)
  | _ => True
  end.

(** The names [from ... import] binds, each with its module. *)
Definition imports : list (string * string) :=
  [ ("AutoModel", "transformers"); ("AutoTokenizer", "transformers");
    ("pipeline", "transformers"); ("utils", "transformers");
    ("T5ForConditionalGeneration", "transformers");
    ("model_view", "bertviz"); ("head_view", "bertviz");
    ("show", "bertviz.neuron_view");
    ("BertModel", "bertviz.transformers_neuron_view");
    ("BertTokenizer", "bertviz.transformers_neuron_view") ].

(** The global names the notebook calls. *)
Definition called : list string :=
  [ "print"; "pipeline"; "unmasker"; "show"; "model"; "model_view";
    "t5_tokenizer"; "t5_model" ].

(** A call by name reaches what the notebook bound to that name, and
    [from_pretrained] is sent to an imported class. *)
Definition callee_as_bound (past : list entry) (ev : event Exn) : Prop :=
  match ev with
  | EServe (RCall fn f _ _) _ =>
      fn ∈ called ∧
      (fn = "print" → f = VBuiltin "print") ∧
      (fn = "pipeline" → imported past "transformers" "pipeline" f) ∧
      (fn = "show" → imported past "bertviz.neuron_view" "show" f) ∧
      (fn = "model_view" → imported past "bertviz" "model_view" f) ∧
      (fn = "unmasker" →
       ∃ p, returned past
              (RCall "pipeline" p [VStr "fill-mask"]
                 [Kw "model" (VStr "bert-base-cased")]) f) ∧
      (fn = "model" →
       loaded_by past "transformers" "AutoModel" "bert-base-cased" f) ∧
      (fn = "t5_tokenizer" →
       loaded_by past "transformers" "AutoTokenizer" "t5-small" f) ∧
      (fn = "t5_model" →
       loaded_by past "transformers" "T5ForConditionalGeneration" "t5-small"
         f)
  | EServe (RMethod cls meth _ _) _ =>
      meth = "from_pretrained" →
      ∃ name module, imported past module name cls ∧
                     (name, module) ∈ imports
  | _ => True
  end.

(** How often [pat] occurs in [s]. *)
Fixpoint occurrences (pat s : string) : nat :=
  match s with
  | EmptyString => 0
  | String _ rest =>
      ((if String.prefix pat s then 1 else 0) + occurrences pat rest)%nat
  end.

(** The fill-mask pipeline is given one string with one mask token. *)
Definition one_mask (ev : event Exn) : Prop :=
  match ev with
  | EServe (RCall fn _ args kw) _ =>
      fn = "unmasker" →
      ∃ s, args = [VStr s] ∧ kw = [] ∧ occurrences "[MASK]" s = 1%nat
  | _ => True
  end.

(** The cells that load a model, a tokenizer or a pipeline, each with the
    checkpoint it names. *)
Definition loading_cells : list (nat * string) :=
  [ (2%nat, "bert-base-cased"); (3%nat, "bert-base-cased");
    (5%nat, "bert-base-cased"); (6%nat, "bert-base-cased");
    (8%nat, "t5-small") ].

Definition loads_where_written (ce : entry) : Prop :=
  match ce.2 with
  | EServe (RMethod _ meth args _) _ =>
      meth = "from_pretrained" →
      ∃ ckpt, args = [VStr ckpt] ∧ (ce.1, ckpt) ∈ loading_cells
  | EServe (RCall fn _ args kw) _ =>
      fn = "pipeline" →
      ∃ task ckpt, args = [VStr task] ∧ kw = [Kw "model" (VStr ckpt)] ∧
                   (ce.1, ckpt) ∈ loading_cells
  | _ => True
  end.

(** What cell 4 prints: the list formatted into each message has one entry
    per prediction that iterating the pipeline's answer yielded, the
    prediction's ["token_str"]. *)
Definition predictions_listed (past : list entry) (ce : entry) : Prop :=
  match ce.2 with
  | EFormat v _ =>
      ce.1 = 4%nat →
      ∃ vs preds items,
        v = VList vs ∧
        (ce.1, EIter preds (inr items)) ∈ past ∧
        Forall2 (fun item s =>
                   returned past (RGetitem item (VStr "token_str")) s)
                items vs ∧
        ∃ u sentence,
          returned past (RCall "unmasker" u [VStr sentence] []) preds
  | _ => True
  end.

(** [transformers]' logging was set to report errors only. *)
Definition quiet (past : list entry) : Prop :=
  ∃ lg r u, returned past (RMethod lg "set_verbosity_error" [] []) r ∧
            returned past (RGetattr u "logging") lg ∧
            imported past "transformers" "utils" u.

Definition quiet_before_load (past : list entry) (ev : event Exn) : Prop :=
  match ev with
  | EServe (RMethod _ meth _ _) _ => meth = "from_pretrained" → quiet past
  | EServe (RCall fn _ _ _) _ => fn = "pipeline" → quiet past
  | _ => True
  end.

(** The labels of cell 4's messages, each with the sentence whose
    predictions it announces. *)
Definition prediction_labels : list (string * string) :=
  [ ("Male predictions: ", "The man worked as a [MASK].");
    ("Female predictions: ", "The woman worked as a [MASK].") ].

(** The value shown after [label] in a message of cell [c]: the ids of
    ["WANDISCO"], the tokens of those ids, or the predictions for the
    label's sentence. *)
Definition shown (past : list entry) (c : nat) (label : string)
           (v : value) : Prop :=
  (label = "IDS: " ∧
   ∃ tk, returned past (RMethod tk "encode" [VStr "WANDISCO"] []) v) ∨
  (label = "Tokens: " ∧
   ∃ tk ids,
     returned past (RMethod tk "convert_ids_to_tokens" [ids] []) v ∧
     returned past (RMethod tk "encode" [VStr "WANDISCO"] []) ids) ∨
  (∃ vs preds items u sentence,
     v = VList vs ∧
     (c, EIter preds (inr items)) ∈ past ∧
     Forall2 (fun item s =>
                returned past (RGetitem item (VStr "token_str")) s)
             items vs ∧
     returned past (RCall "unmasker" u [VStr sentence] []) preds ∧
     (label, sentence) ∈ prediction_labels).

(** What [print] is given: a label followed by the text of the value the
    label announces, or (cell 7) the tokens joined by spaces. *)
Definition printed_as_written (past : list entry) (ce : entry) : Prop :=
  match ce.2 with
  | EServe (RCall fn _ args kw) _ =>
      fn = "print" →
      kw = [] ∧
      ((∃ v s label,
          (ce.1, EFormat v (inr s)) ∈ past ∧
          args = [VStr (label +:+ s)] ∧ shown past ce.1 label v) ∨
       (∃ joined toks tk ids,
          args = [joined] ∧
          returned past (RMethod (VStr " ") "join" [toks] []) joined ∧
          returned past (RMethod tk "convert_ids_to_tokens" [ids] []) toks))
  | _ => True
  end.

(** ** The steps of the notebook

    The shape of a step, as far as the notebook's text fixes it: the command
    of a [!] or [%] line, the module of an import, the name of an attribute,
    the key of a subscription, and for a call the name called, the number
    of positional arguments and the keywords in order ([**] for an unpacked
    mapping). *)
Inductive step : Type :=
| SShell (cmd : string)
| SMagic (name line : string)
| SImport (module : string)
| SGetattr (name : string)
| SGetitem (key : value)
| SAdd
| SCall (fn : string) (positional : nat) (keywords : list string)
| SMethod (meth : string) (positional : nat) (keywords : list string)
| SIter
| SFormat.

Definition keyword (k : kwarg) : string :=
  match k with
  | Kw name _ => name
  | KwUnpack _ => "**"
  end.

Definition step_of (ev : event Exn) : step :=
  match ev with
  | EServe (RShell cmd) _ => SShell cmd
  | EServe (RMagic name line) _ => SMagic name line
  | EServe (RImport module) _ => SImport module
  | EServe (RGetattr _ name) _ => SGetattr name
  | EServe (RGetitem _ key) _ => SGetitem key
  | EServe (RAdd _ _) _ => SAdd
  | EServe (RCall fn _ args kw) _ => SCall fn (length args) (keyword <$> kw)
  | EServe (RMethod _ meth args kw) _ =>
      SMethod meth (length args) (keyword <$> kw)
  | EIter _ _ => SIter
  | EFormat _ _ => SFormat
  end.

(** Every step the notebook takes outside its own process, cell by cell:
    the two commands of the install cell, and requests to the interpreter
    and the libraries.  No cell opens, writes or removes a file, starts a
    process or touches the environment by a statement of its own after
    cell 0. *)
Definition steps : list (nat * step) :=
  [ (0, SShell wget_command);
    (0, SMagic "pip" "install -r requirements.txt");
    (1, SImport "transformers");
    (1, SGetattr "AutoModel"); (1, SGetattr "AutoTokenizer");
    (1, SGetattr "pipeline"); (1, SGetattr "utils");
    (1, SGetattr "T5ForConditionalGeneration");
    (1, SImport "bertviz");
    (1, SGetattr "model_view"); (1, SGetattr "head_view");
    (1, SImport "bertviz.neuron_view");
    (1, SGetattr "show");
    (1, SImport "bertviz.transformers_neuron_view");
    (1, SGetattr "BertModel"); (1, SGetattr "BertTokenizer");
    (1, SGetattr "logging");
    (1, SMethod "set_verbosity_error" 0 []);
    (2, SMethod "from_pretrained" 1 []);
    (2, SMethod "encode" 1 []);
    (2, SFormat);
    (2, SCall "print" 1 []);
    (2, SMethod "convert_ids_to_tokens" 1 []);
    (3, SCall "pipeline" 1 ["model"]);
    (3, SCall "unmasker" 1 []);
    (4, SCall "unmasker" 1 []);
    (4, SIter);
    (4, SGetitem (VStr "token_str"));
    (4, SFormat);
    (4, SCall "print" 1 []);
    (5, SMethod "from_pretrained" 1 ["output_attentions"]);
    (5, SMethod "from_pretrained" 1 ["do_lower_case"]);
    (5, SCall "show" 4 ["layer"; "head"]);
    (6, SMethod "from_pretrained" 1 ["output_attentions"]);
    (6, SMethod "from_pretrained" 1 []);
    (6, SMethod "encode" 1 ["return_tensors"]);
    (6, SCall "model" 1 []);
    (6, SGetitem (VInt (-1)));
    (6, SGetitem (VInt 0));
    (6, SMethod "convert_ids_to_tokens" 1 []);
    (6, SCall "model_view" 2 []);
    (7, SMethod "encode" 2 ["return_tensors"]);
    (7, SCall "model" 1 []);
    (7, SGetitem (VInt (-1)));
    (7, SGetitem (VInt 0));
    (7, SMethod "convert_ids_to_tokens" 1 []);
    (7, SMethod "join" 1 []);
    (7, SCall "print" 1 []);
    (7, SCall "model_view" 2 []);
    (8, SMethod "from_pretrained" 1 ["output_attentions"]);
    (8, SMethod "from_pretrained" 1 ["model_max_length"]);
    (8, SCall "t5_tokenizer" 1 ["return_tensors"]);
    (8, SMethod "generate" 0 ["**"; "max_length"]);
    (8, SMethod "batch_decode" 1 []);
    (9, SCall "t5_tokenizer" 1 ["return_tensors"]);
    (9, SMethod "generate" 0 ["**"; "max_length"]);
    (9, SMethod "batch_decode" 1 []);
    (10, SCall "t5_tokenizer" 1 ["return_tensors"; "add_special_tokens"]);
    (10, SGetattr "input_ids");
    (10, SCall "t5_tokenizer" 0
           ["text_target"; "return_tensors"; "add_special_tokens"]);
    (10, SCall "t5_model" 0 ["input_ids"; "decoder_input_ids"]);
    (10, SGetitem (VInt 0));
    (10, SMethod "convert_ids_to_tokens" 1 []);
    (10, SGetattr "encoder_attentions");
    (10, SGetattr "decoder_attentions");
    (10, SGetattr "cross_attentions");
    (10, SCall "model_view" 0
           ["encoder_attention"; "decoder_attention"; "cross_attention";
            "encoder_tokens"; "decoder_tokens"]) ]%nat.

(** The step of a log entry is one the notebook's text has, in the cell
    that has it. *)
Definition step_as_written (ce : entry) : Prop :=
  (ce.1, step_of ce.2) ∈ steps.

Definition consistent (past : list entry) (ce : entry) : Prop :=
  model_meets_its_tokenizer past ce.2 ∧ decoded_by_encoder past ce.2 ∧
  callee_as_bound past ce.2 ∧ one_mask ce.2 ∧ loads_where_written ce ∧
  predictions_listed past ce ∧ quiet_before_load past ce.2 ∧
  printed_as_written past ce ∧ step_as_written ce.

End Provenance.
(** * Rules *)

Section Rules.
Context {World Exn : Type} {RT : Runtime World Exn}.
#[local] Abbreviation M := (M World Exn).
#[local] Abbreviation state := (state World Exn).
#[local] Abbreviation entry := (nat * event Exn)%type.

Lemma wp_ret {A} (a : A) K F (st : state) : K a st → wp (ret a) K F st.
Proof. done. Qed.

Lemma wp_bind {A B} (m : M A) (k : A → M B) K F st :
  wp m (fun a st' => wp (k a) K F st') F st → wp (bind m k) K F st.
Proof. unfold wp, bind. by destruct (m st) as [[a|err] st']. Qed.

Lemma wp_ask q (K : value → state → Prop) F E w c t a :
  (∀ r w', wp_answer r K F (mkState E w' c ((c, EServe q r) :: t) a)) →
  wp (ask q) K F (mkState E w c t a).
Proof.
  intros H. unfold wp, ask; cbn. destruct (serve q w) as [r w'].
  specialize (H r w'). by destruct r.
Qed.

Lemma wp_ask_iter v (K : list value → state → Prop) F E w c t a :
  (∀ r w', wp_answer r K F (mkState E w' c ((c, EIter v r) :: t) a)) →
  wp (ask_iter v) K F (mkState E w c t a).
Proof.
  intros H. unfold wp, ask_iter; cbn. destruct (iterate v w) as [r w'].
  specialize (H r w'). by destruct r.
Qed.

Lemma wp_ask_format v (K : string → state → Prop) F E w c t a :
  (∀ r w', wp_answer r K F (mkState E w' c ((c, EFormat v r) :: t) a)) →
  wp (ask_format v) K F (mkState E w c t a).
Proof.
  intros H. unfold wp, ask_format; cbn. destruct (format v w) as [r w'].
  specialize (H r w'). by destruct r.
Qed.

Lemma wp_load x o b (K : value → state → Prop) F E w c t a :
  E !! x = o → is_builtin x = b →
  match o with
  | Some v => K v (mkState E w c t ((c, ALoad x) :: a))
  | None => if b then K (VBuiltin x) (mkState E w c t ((c, ALoad x) :: a))
            else F (NameError x) (mkState E w c t ((c, ALoad x) :: a))
  end →
  wp (load x) K F (mkState E w c t a).
Proof.
  intros <- <-. unfold wp, load, note; cbn.
  by destruct (E !! x), (is_builtin x).
Qed.

Lemma wp_store x v (K : unit → state → Prop) F E w c t a :
  K tt (mkState (<[x := v]> E) w c t ((c, AStore x) :: a)) →
  wp (store x v) K F (mkState E w c t a).
Proof. done. Qed.

Lemma wp_in_cell i (m : M value) K F E w c t a :
  wp m K F (mkState E w i t a) → wp (in_cell i m) K F (mkState E w c t a).
Proof. done. Qed.

Lemma steady_ret (P : event Exn → Prop) {A} (x : A) : steady P (ret x : M A).
Proof. intros E w c t a. by exists [], w. Qed.

Lemma steady_ask (P : event Exn → Prop) q :
    (∀ r, P (EServe q r)) → steady P (ask q).
Proof.
  intros HP E w c t a. unfold ask; cbn. destruct (serve q w) as [r w'].
  exists [(c, EServe q r)], w'. split_and!; [done | | by destruct r].
  constructor; [split; [done | apply HP] | constructor].
Qed.

Lemma steady_bind (P : event Exn → Prop) {A B} (m : M A) (k : A → M B) :
  steady P m → (∀ x, steady P (k x)) → steady P (bind m k).
Proof.
  intros Hm Hk E w c t a. unfold bind.
  destruct (Hm E w c t a) as (seg & w' & Hst & Hseg & Hne).
  destruct (m (mkState E w c t a)) as [[x | err] st']; cbn in *; subst st'.
  - destruct (Hk x E w' c (seg ++ t) a) as (seg2 & w2 & Hst2 & Hseg2 & Hne2).
    exists (seg2 ++ seg), w2. rewrite <- app_assoc.
    split_and!; [done | by apply Forall_app | done].
  - exists seg, w'. split_and!; [done | done |].
    intros x Hx. apply (Hne x). by inversion Hx.
Qed.

Lemma steady_bind_ret (P : event Exn → Prop) {A B} (x : A) (k : A → M B) :
  steady P (k x) → steady P (bind (ret x) k).
Proof. intros H E w c t a. apply H. Qed.

Lemma steady_for_each (P : event Exn → Prop) {A B} (body : A → M B) items :
  (∀ x, steady P (body x)) → steady P (for_each body items).
Proof.
  intros Hb. induction items as [| x rest IH]; cbn [for_each].
  - apply steady_ret.
  - apply steady_bind; [apply Hb |]. intros y.
    apply steady_bind; [apply IH |]. intros ys. apply steady_ret.
Qed.

Lemma wp_steady (P : event Exn → Prop) {A} (m : M A)
      (K : A → state → Prop) F E w c t a :
  steady P m →
  (∀ seg w', Forall (fun ce : entry => ce.1 = c ∧ P ce.2) seg →
             (∀ v, K v (mkState E w' c (seg ++ t) a)) ∧
             (∀ e, F (Thrown e) (mkState E w' c (seg ++ t) a))) →
  wp m K F (mkState E w c t a).
Proof.
  intros Hm HQ. unfold wp.
  destruct (Hm E w c t a) as (seg & w' & Hst & Hseg & Hne).
  destruct (m (mkState E w c t a)) as [[v | [x | e]] st']; cbn in *; subst st'.
  - by apply HQ.
  - by destruct (Hne x).
  - by apply HQ.
Qed.

Lemma each_cons {A} (P : list A → A → Prop) x past :
  P past x → each_with_past P past → each_with_past P (x :: past).
Proof. by split. Qed.

Lemma each_app {A} (P : list A → A → Prop) seg past :
  Forall (fun x => ∀ before, P before x) seg →
  each_with_past P past → each_with_past P (seg ++ past).
Proof.
  intros Hseg Hpast. induction Hseg as [| x seg Hx _ IH]; [done |].
  cbn. split; [apply Hx | apply IH].
Qed.

Lemma each_split {A} (P : list A → A → Prop) log post x past :
  each_with_past P log → log = post ++ x :: past → P past x.
Proof.
  intros H ->. induction post as [| y post IH]; cbn in H; [apply H |].
  apply IH, H.
Qed.

(** The events of a comprehension's body are well formed whatever came
    before them. *)
Lemma plucks_wellformed (c : nat) (ce : entry) (before : list entry) :
  ce.1 = c ∧ plucks ce.2 → wellformed before ce.
Proof.
  destruct ce as [c' ev]; cbn. intros [_ (o & r & ->)].
  repeat split; cbn; discriminate.
Qed.

End Rules.

(** ** Symbolic execution of a cell

    The tactics below run a cell step by step on a session state whose
    variables are known: a read is looked up, a write is recorded, and a
    request splits the proof in two, the branch where the runtime raised and
    the branch where it returned an arbitrary value. *)

Ltac wp_unfold_cell c :=
  let rec h t := lazymatch t with ?f _ => h f | _ => t end in
  let c := h c in unfold c.

Ltac wp_split_answer :=
  lazymatch goal with r : (_ + _)%type |- _ => destruct r as [?e | ?v] end;
  cbv beta iota delta [wp_answer].

Ltac wp_asked w on_event :=
  intros ?r ?w; try clear w; on_event; wp_split_answer.

(** One step: [on_event] runs after each request, with the answer still
    abstract, and [on_loop] after each comprehension. *)
Ltac wp_step on_event on_loop :=
  lazymatch goal with
  | |- wp (bind _ _) _ _ _ => apply wp_bind
  | |- wp (ret _) _ _ _ => apply wp_ret; cbv beta iota
  | |- wp (in_cell _ ?c) _ _ _ =>
      apply wp_in_cell; wp_unfold_cell c;
      cbv [expr shell magic import_from bind_names assign var str int boolean
           evals eval_kwargs call method attr subscript add fstring
           fstring_text listcomp token_strs]
  | |- wp (ask _) _ _ (mkState _ ?w _ _ _) => apply wp_ask; wp_asked w on_event
  | |- wp (ask_iter _) _ _ (mkState _ ?w _ _ _) =>
      apply wp_ask_iter; wp_asked w on_event
  | |- wp (ask_format _) _ _ (mkState _ ?w _ _ _) =>
      apply wp_ask_format; wp_asked w on_event
  | |- wp (for_each _ _) _ _ (mkState _ ?w _ _ _) =>
      apply (wp_steady plucks);
      [ apply steady_for_each; intros ?;
        repeat first [ apply steady_bind_ret | apply steady_ret
                     | apply steady_ask; intros ?; eexists _, _; reflexivity ]
      | intros ?seg ?w ?Hseg; try clear w; on_loop;
        split; [intros ?vs | intros ?e]; cbv beta iota ]
  | |- wp (store _ _) _ _ _ => apply wp_store; cbv beta iota
  | |- wp (load ?x) _ _ (mkState ?E _ _ _ _) =>
      let o := eval vm_compute in (E !! x) in
      let b := eval vm_compute in (is_builtin x) in
      apply (wp_load x o b);
      [ vm_compute; reflexivity | vm_compute; reflexivity | cbv beta iota ]
  end.

(** Run to the end; [on_leaf] closes what is left where a run stops. *)
Ltac wp_run on_event on_loop on_leaf :=
  repeat lazymatch goal with
         | |- wp _ _ _ _ => wp_step on_event on_loop
         | |- _ => progress on_leaf
         end.

(** ** Finding the origin of an argument in the past *)

Ltac in_past :=
  solve [ repeat first [ apply list_elem_of_here
                       | apply list_elem_of_further
                       | apply elem_of_app; right ] ].

Ltac provenance :=
  repeat lazymatch goal with
         | |- ∃ _, _ => eexists
         | |- _ ∧ _ => split
         | |- _ = _ => reflexivity
         | |- _ ∈ _ => in_past
         | |- returned _ _ _ => unfold returned
         | |- attention_model _ _ => unfold attention_model
         | |- tokens_of _ _ _ => unfold tokens_of
         end.

(** The new event is well formed: most conjuncts are about other requests
    and hold trivially, the others are found in the past. *)
Ltac wellformed_event :=
  lazymatch goal with
  | |- wellformed ?past _ =>
      let p := fresh "past" in
      set (p := past);
      unfold wellformed, generation_as_written, host_commands_in_install,
        attention_sourced, labels_match;
      cbn [fst snd host_command];
      repeat lazymatch goal with
             | |- _ ∧ _ => split
             | |- True => exact I
             | |- _ → _ =>
                 let H := fresh in
                 intros H; first [ discriminate H | clear H ]
             | |- bert_view _ _ _ ∨ t5_view _ _ _ =>
                 subst p;
                 first [ left; unfold bert_view; solve [provenance]
                       | right; unfold t5_view; solve [provenance] ]
             | |- _ ∨ _ =>
                 subst p;
                 first [ left; solve [provenance] | right; solve [provenance] ]
             | |- _ => subst p; solve [provenance]
             end
  end.

(** Extend the invariant of the trace by the event just logged. *)
Ltac grow_trace :=
  idtac;
  lazymatch goal with
  | Hp : each_with_past wellformed ?t
    |- wp_answer _ _ _ (mkState _ _ _ (?ce :: ?t) _) =>
      let H := fresh "Hp" in
      assert (H : each_with_past wellformed (ce :: t))
        by (apply each_cons; [wellformed_event | exact Hp]);
      clear Hp
  end.

(** The same for the events of a comprehension. *)
Ltac grow_trace_loop :=
  idtac;
  lazymatch goal with
  | Hp : each_with_past wellformed ?t, Hseg : Forall _ ?seg |- _ =>
      let H := fresh "Hp" in
      assert (H : each_with_past wellformed (seg ++ t))
        by (apply each_app;
            [ eapply Forall_impl;
              [ exact Hseg
              | intros ce Hce before;
                exact (plucks_wellformed _ ce before Hce) ]
            | exact Hp ]);
      clear Hp Hseg
  end.

(** Where a run stops: the trace invariant is at hand, the access log is
    closed and is checked by computation. *)
Ltac session_leaf :=
  idtac;
  lazymatch goal with
  | Hp : each_with_past wellformed _ |- sound_session _ ∧ _ =>
      split;
      [ split; [exact Hp | vm_compute; reflexivity]
      | intros ?; discriminate ]
  | Hp : each_with_past wellformed _ |- sound_session _ =>
      split; [exact Hp | vm_compute; reflexivity]
  end.


(** * Failures of the runtime *)

Section Propagation.
Context {World Exn : Type} {RT : Runtime World Exn}.
#[local] Abbreviation M := (M World Exn).

Lemma propagates_ret {A} (a : A) : propagates (ret a : M A).
Proof. intros st. exists []. split; [done | constructor]. Qed.

Lemma propagates_bind {A B} (m : M A) (k : A → M B) :
  propagates m → (∀ a, propagates (k a)) → propagates (bind m k).
Proof.
  intros Hm Hk st. unfold bind.
  destruct (Hm st) as (seg1 & Ht1 & He1).
  destruct (m st) as [[a | err] st1]; cbn in *; [| by exists seg1].
  destruct (Hk a st1) as (seg2 & Ht2 & He2).
  exists (seg2 ++ seg1). rewrite Ht2, Ht1, app_assoc. split; [done |].
  destruct (k a st1) as [[b | [x | e]] st2]; cbn in *.
  - by apply Forall_app.
  - by apply Forall_app.
  - destruct He2 as (ce & rest & -> & Hce & Hrest).
    exists ce, (rest ++ seg1). split_and!; [done | done | by apply Forall_app].
Qed.

Lemma ends_as_answer {A} (c : nat) (ev : event Exn) (r : Exn + A) :
  failure_of ev = match r with inl e => Some e | inr _ => None end →
  ends_as (answer r) [(c, ev)].
Proof.
  intros Hev. destruct r as [e | a]; cbn.
  - by exists (c, ev), [].
  - by repeat constructor.
Qed.

Lemma propagates_ask q : propagates (ask q).
Proof.
  intros st. unfold ask. destruct (serve q (world st)) as [r w']; cbn.
  exists [(cell st, EServe q r)]. split; [done |].
  apply ends_as_answer. by destruct r.
Qed.

Lemma propagates_ask_iter v : propagates (ask_iter v).
Proof.
  intros st. unfold ask_iter. destruct (iterate v (world st)) as [r w']; cbn.
  exists [(cell st, EIter v r)]. split; [done |].
  apply ends_as_answer. by destruct r.
Qed.

Lemma propagates_ask_format v : propagates (ask_format v).
Proof.
  intros st. unfold ask_format. destruct (format v (world st)) as [r w']; cbn.
  exists [(cell st, EFormat v r)]. split; [done |].
  apply ends_as_answer. by destruct r.
Qed.

Lemma propagates_load x : propagates (load x : M value).
Proof.
  intros st. exists []. unfold load.
  destruct (env st !! x), (is_builtin x); (split; [done | constructor]).
Qed.

Lemma propagates_store x v : propagates (store x v : M unit).
Proof. intros st. exists []. split; [done | constructor]. Qed.

Lemma propagates_for_each {A B} (body : A → M B) items :
  (∀ x, propagates (body x)) → propagates (for_each body items).
Proof.
  intros Hb. induction items as [| x rest IH]; cbn [for_each].
  - apply propagates_ret.
  - apply propagates_bind; [apply Hb |]. intros y.
    apply propagates_bind; [apply IH |]. intros ys. apply propagates_ret.
Qed.

Lemma propagates_in_cell i (c : M value) :
  propagates c → propagates (in_cell i c).
Proof.
  intros Hc st.
  exact (Hc (mkState (env st) (world st) i (trace st) (accesses st))).
Qed.

Lemma propagates_run_from i (cells : list (M value)) :
  Forall propagates cells → propagates (run_from i cells).
Proof.
  intros Hcells. revert i.
  induction Hcells as [| c rest Hc _ IH]; intros i; cbn [run_from].
  - apply propagates_ret.
  - apply propagates_bind; [by apply propagates_in_cell |]. intros v.
    apply propagates_bind; [apply IH |]. intros vs. apply propagates_ret.
Qed.

End Propagation.

Ltac propagation :=
  repeat lazymatch goal with
         | |- propagates (bind _ _) => apply propagates_bind; [| intros ?]
         | |- propagates (ret _) => apply propagates_ret
         | |- propagates (ask _) => apply propagates_ask
         | |- propagates (ask_iter _) => apply propagates_ask_iter
         | |- propagates (ask_format _) => apply propagates_ask_format
         | |- propagates (load _) => apply propagates_load
         | |- propagates (store _ _) => apply propagates_store
         | |- propagates (for_each _ _) => apply propagates_for_each; intros ?
         | |- propagates (match ?x with _ => _ end) => destruct x
         end.

Ltac propagation_of_cell c :=
  unfold c;
  cbv [expr shell magic import_from bind_names assign var str int boolean
       evals eval_kwargs call method attr subscript add fstring
       fstring_text listcomp token_strs];
  propagation.

Lemma cells_propagate {World Exn} {RT : Runtime World Exn} :
  Forall propagates (notebook (RT := RT)).
Proof.
  unfold notebook. repeat apply Forall_cons_2; [.. | apply Forall_nil_2].
  - propagation_of_cell @cell_install.
  - propagation_of_cell @cell_imports.
  - propagation_of_cell @cell_tokenise.
  - propagation_of_cell @cell_unmask.
  - propagation_of_cell @cell_bias.
  - propagation_of_cell @cell_neuron_view.
  - propagation_of_cell @cell_model_view.
  - propagation_of_cell @cell_two_sentences.
  - propagation_of_cell @cell_translate.
  - propagation_of_cell @cell_summarise.
  - propagation_of_cell @cell_t5_attention.
Qed.

(** * The session invariant

    One symbolic run of the whole notebook, top to bottom from a fresh
    kernel, against an arbitrary runtime: wherever the run stops, every event
    logged so far is well formed, every name read was bound, and the run did
    not stop on a [NameError]. *)
Lemma session_is_sound {World Exn} {RT : Runtime World Exn} (w : World) :
  wp (run_from 0 notebook)
     (fun _ st => sound_session st)
     (fun err st => sound_session st ∧ ∀ x, err ≠ NameError x)
     (fresh_kernel w).
Proof.
  assert (Hp : each_with_past (@wellformed Exn) []) by exact I.
  unfold fresh_kernel, notebook. cbn [run_from].
  wp_run grow_trace grow_trace_loop session_leaf.
Qed.

(** * Consequences for a whole run *)

Section Runs.
Context {World Exn : Type} {RT : Runtime World Exn}.

Lemma run_is_sound (w : World) :
  sound_session (run_all w).2 ∧ ∀ x, (run_all w).1 ≠ Raised (NameError x).
Proof.
  pose proof (session_is_sound w) as H. unfold wp in H. unfold run_all.
  destruct (run_from 0 notebook (fresh_kernel w)) as [[vs | err] st]; cbn.
  - split; [exact H | discriminate].
  - destruct H as [H Hne]. split; [exact H |].
    intros x Hx. apply (Hne x). by inversion Hx.
Qed.

Lemma run_wellformed (w : World) post ce past :
  trace (run_all w).2 = post ++ ce :: past → wellformed past ce.
Proof.
  intros Ht. destruct (run_is_sound w) as [[Hall _] _].
  exact (each_split _ _ _ _ _ Hall Ht).
Qed.

End Runs.

Lemma bound_before_use_b_sound (log : list (nat * access)) :
  bound_before_use_b log = true → each_with_past bound_before_use log.
Proof.
  induction log as [| [c [x | x]] before IH]; cbn; [done | |].
  - intros [Hx Hrest]%andb_true_iff. split; [| by apply IH].
    apply orb_true_iff in Hx as [Hp | Hs].
    + left. by apply String.eqb_eq.
    + right. apply existsb_exists in Hs as ([c' [y | y]] & Hin & Hst);
        cbn in Hst; [done |].
      apply andb_true_iff in Hst as [Hxy Hle].
      apply String.eqb_eq in Hxy as ->. apply Nat.leb_le in Hle.
      exists c'. split; [done |]. by apply list_elem_of_In.
  - intros H. split; [done | by apply IH].
Qed.


(** * Provenance along a run

    A second symbolic run of the notebook, for the invariant [consistent].
    The comprehensions of cell 4 are followed item by item, so that the
    list they build can be related to the requests that made it. *)

Section Comprehension.
Context {World Exn : Type} {RT : Runtime World Exn}.
#[local] Abbreviation M := (M World Exn).
#[local] Abbreviation state := (state World Exn).
#[local] Abbreviation entry := (nat * event Exn)%type.

(** A loop whose body is one request per item: the events it adds, and the
    list it returns. *)
Lemma for_each_ask_run (q : value → request) (body : value → M value)
      items E w c (t : list entry) a :
  (∀ x st, body x st = ask (q x) st) →
  ∃ seg w',
    (for_each body items (mkState E w c t a)).2
      = mkState E w' c (seg ++ t) a ∧
    Forall (fun ce : entry => ∃ x r, ce = (c, EServe (q x) r)) seg ∧
    match (for_each body items (mkState E w c t a)).1 with
    | Ok vs => Forall2 (fun x v => (c, EServe (q x) (inr v)) ∈ seg) items vs
    | Raised (Thrown _) => True
    | Raised (NameError _) => False
    end.
Proof.
  intros Hbody. revert w t.
  induction items as [| x rest IH]; intros w t; cbn [for_each].
  - exists [], w. cbn. split; [reflexivity |]. split; constructor.
  - unfold bind at 1 3. rewrite Hbody. unfold ask; cbn.
    destruct (serve (q x) w) as [[e | v] w1]; cbn.
    + exists [(c, EServe (q x) (inl e))], w1.
      split_and!; [done | | done]. repeat constructor. by exists x, (inl e).
    + destruct (IH w1 ((c, EServe (q x) (inr v)) :: t))
        as (seg & w' & Hst & Hseg & Hres).
      unfold bind, record in *; cbn in *.
      destruct (for_each body rest _) as [[vs | [y | e]] st2];
        cbn in *; subst st2; [| done |];
        exists (seg ++ [(c, EServe (q x) (inr v))]), w';
        rewrite <- app_assoc; cbn.
      * split_and!; [done | |].
        { apply Forall_app. split; [done |]. repeat constructor.
          by exists x, (inr v). }
        constructor.
        { apply elem_of_app. right. apply list_elem_of_here. }
        eapply Forall2_impl; [exact Hres |]. intros x' v' Hin.
        apply elem_of_app. by left.
      * split_and!; [done | | done].
        apply Forall_app. split; [done |]. repeat constructor.
        by exists x, (inr v).
Qed.

(** The same as a rule: what follows the loop is run on every list and
    every sequence of events the loop can have produced. *)
Lemma wp_for_each_ask (q : value → request) (body : value → M value) items
      (K : list value → state → Prop) F E w c (t : list entry) a :
  (∀ x st, body x st = ask (q x) st) →
  (∀ seg w',
      Forall (fun ce : entry => ∃ x r, ce = (c, EServe (q x) r)) seg →
      (∀ vs,
          Forall2 (fun x v => (c, EServe (q x) (inr v)) ∈ seg) items vs →
          K vs (mkState E w' c (seg ++ t) a)) ∧
      (∀ e, F (Thrown e) (mkState E w' c (seg ++ t) a))) →
  wp (for_each body items) K F (mkState E w c t a).
Proof.
  intros Hbody HQ. unfold wp.
  destruct (for_each_ask_run q body items E w c t a Hbody)
    as (seg & w' & Hst & Hseg & Hres).
  destruct (for_each body items _) as [[vs | [x | e]] st'];
    cbn in *; subst st'; [| done |].
  - by apply HQ.
  - by apply HQ.
Qed.

(** The subscriptions of cell 4's comprehensions are steps of the
    notebook, and [consistent] constrains them no further. *)
Lemma getitem_consistent (ce : entry) (before : list entry) :
  (∃ x r, ce = (4%nat, EServe (RGetitem x (VStr "token_str")) r)) →
  consistent before ce.
Proof.
  intros (x & r & ->). repeat split.
  apply (list_elem_of_lookup_2 _ 27). reflexivity.
Qed.

End Comprehension.

Lemma append_nil_r (s : string) : s +:+ "" = s.
Proof.
  induction s as [| a s IH]; [done | exact (f_equal (String a) IH)].
Qed.

(** The entries of a comprehension's list are found among the events of
    its loop. *)
Ltac listed_entries :=
  lazymatch goal with
  | H : Forall2 _ ?items ?vs |- Forall2 _ ?items ?vs =>
      eapply Forall2_impl; [exact H |];
      let Hin := fresh in
      intros ? ? Hin; unfold returned; eexists;
      repeat first [ apply elem_of_app; left; exact Hin
                   | apply list_elem_of_further ]
  end.

(** Find where a value comes from: the conjuncts are tried in order, each
    fixing the requests the next one looks for. *)
Ltac origin :=
  lazymatch goal with
  | |- ∃ _, _ => eexists; origin
  | |- _ ∧ _ => split; [origin | origin]
  | |- _ ∨ _ => first [left; origin | right; origin]
  | |- Forall2 _ _ _ => listed_entries
  | |- _ = _ => first [ reflexivity | rewrite append_nil_r; reflexivity ]
  | |- _ ∈ _ => in_past
  | |- returned _ _ _ => unfold returned; origin
  | |- quiet _ => unfold quiet; origin
  | |- shown _ _ _ _ => unfold shown; origin
  | |- imported _ _ _ _ => unfold imported; origin
  | |- loaded_by _ _ _ _ _ => unfold loaded_by; origin
  | |- encoded_by _ _ _ => unfold encoded_by; origin
  | |- paired _ _ _ => unfold paired; origin
  end.

(** The new event is [consistent]: the conjuncts about other requests hold
    trivially, the others by finding the origin of the event's values. *)
Ltac consistent_event :=
  lazymatch goal with
  | |- consistent ?past _ =>
      let p := fresh "past" in
      set (p := past);
      unfold consistent, model_meets_its_tokenizer, decoded_by_encoder,
        callee_as_bound, one_mask, loads_where_written, predictions_listed,
        quiet_before_load, printed_as_written, step_as_written, steps;
      cbn [fst snd step_of keyword length fmap list_fmap];
      repeat lazymatch goal with
             | |- _ ∧ _ => split
             | |- True => exact I
             | |- _ → _ =>
                 let H := fresh in
                 intros H; first [ discriminate H | clear H ]
             | |- _ => subst p; solve [origin]
             end
  end.

(** Extend the invariant by the event just logged, and by the events of a
    comprehension. *)
Ltac grow_consistent :=
  idtac;
  lazymatch goal with
  | Hp : each_with_past consistent ?t
    |- wp_answer _ _ _ (mkState _ _ _ (?ce :: ?t) _) =>
      let H := fresh "Hp" in
      assert (H : each_with_past consistent (ce :: t))
        by (apply each_cons; [consistent_event | exact Hp]);
      clear Hp
  end.

Ltac grow_consistent_loop :=
  lazymatch goal with
  | Hp : each_with_past consistent ?t, Hseg : Forall _ ?seg |- _ =>
      let H := fresh "Hp" in
      assert (H : each_with_past consistent (seg ++ t))
        by (apply each_app;
            [ eapply Forall_impl;
              [ exact Hseg
              | intros ce Hce before;
                exact (getitem_consistent ce before Hce) ]
            | exact Hp ]);
      clear Hp Hseg
  end.

Ltac provenance_step :=
  lazymatch goal with
  | |- wp (for_each _ _) _ _ (mkState _ ?w _ _ _) =>
      apply (wp_for_each_ask (fun x => RGetitem x (VStr "token_str")));
      [ intros ? ?; reflexivity
      | intros ?seg ?w ?Hseg; try clear w; grow_consistent_loop;
        split; [intros ?vs ?Hvs | intros ?e]; cbv beta iota ]
  | |- wp _ _ _ _ => wp_step grow_consistent idtac
  end.

Ltac provenance_leaf :=
  idtac;
  lazymatch goal with
  | Hp : each_with_past consistent _ |- each_with_past consistent _ =>
      exact Hp
  end.

(** The run, top to bottom from a fresh kernel, against any runtime:
    wherever it stops, every event logged is [consistent] with those
    before it. *)
Lemma session_is_consistent {World Exn} {RT : Runtime World Exn} (w : World) :
  wp (run_from 0 notebook)
     (fun _ st => each_with_past consistent (trace st))
     (fun _ st => each_with_past consistent (trace st))
     (fresh_kernel w).
Proof.
  assert (Hp : each_with_past (@consistent Exn) []) by exact I.
  unfold fresh_kernel, notebook. cbn [run_from].
  repeat lazymatch goal with
         | |- wp _ _ _ _ => provenance_step
         | |- _ => progress provenance_leaf
         end.
Qed.

Lemma run_consistent {World Exn} {RT : Runtime World Exn} (w : World)
      post ce past :
  trace (run_all w).2 = post ++ ce :: past → consistent past ce.
Proof.
  intros Ht. pose proof (session_is_consistent w) as H.
  unfold wp in H. unfold run_all in Ht.
  destruct (run_from 0 notebook (fresh_kernel w)) as [[vs | err] st];
    cbn in *; exact (each_split _ _ _ _ _ H Ht).
Qed.

(** * The claims *)

(** C4, as stated, fails: on the stand-in host the first [generate] call is
    given a decoding parameter of its own, [max_length=512]. *)
Lemma generate_sets_max_length :
  ¬ no_decoding_parameters (trace demo_run.2).
Proof.
  intros H.
  apply (H 8%nat (VObj 49) [] [KwUnpack (VObj 51); Kw "max_length" (VInt 512)]
           (inr (VObj 52)) "max_length" (VInt 512)).
  - apply (list_elem_of_lookup_2 _ 17). vm_compute. reflexivity.
  - apply list_elem_of_further, list_elem_of_here.
Qed.

(** C4, amended: every [generate] call is given the unpacked encoding that
    the T5 tokenizer returned for one of the two prefix-tagged prompts, and
    [max_length=512]; it is given nothing else, so no decoding strategy,
    beam or sampling parameter is set. *)
Theorem generate_gets_encoding_and_max_length
    {World Exn} {RT : Runtime World Exn} (w : World) post c ev past :
  trace (run_all w).2 = post ++ (c, ev) :: past →
  generation_as_written past ev.
Proof. intros Ht. by destruct (run_wellformed w _ _ _ Ht) as (H & _). Qed.

Lemma generate_gets_encoding_and_max_length_witness :
  generation_as_written (drop 15 (trace demo_run.2))
    (EServe
       (RMethod (VObj 49) "generate" []
          [KwUnpack (VObj 54); Kw "max_length" (VInt 512)])
       (inr (VObj 55))).
Proof.
  apply (generate_gets_encoding_and_max_length (RT := Host.runtime)
           (Host.clean None) (take 14 (trace demo_run.2)) 9%nat).
  vm_compute. reflexivity.
Defined.

(** Both prompts begin with a task prefix. *)
Lemma prompts_are_prefix_tagged :
  Forall (fun p => ∃ pre, pre ∈ task_prefixes ∧ String.prefix pre p = true)
         prompts.
Proof.
  repeat constructor.
  - exists "translate English to German: ". split; [| reflexivity].
    apply list_elem_of_here.
  - exists "summarize: ". split; [| reflexivity].
    apply list_elem_of_further, list_elem_of_here.
Qed.

(** C5: Whatever cell is run, from whatever state of the session, a failure
    of the runtime ends the cell at once with that very exception: the
    failed request is the last event of the cell (nothing is retried,
    nothing runs after it), the cell raises exactly what the request raised
    (nothing is caught, replaced or wrapped), and a cell that does not raise
    had no failed request.  The same holds of a whole top-to-bottom run. *)
Theorem failures_propagate
    {World Exn} {RT : Runtime World Exn} (c : M World Exn value) (i : nat) :
  c ∈ notebook → propagates (in_cell i c) ∧ propagates (run_from 0 notebook).
Proof.
  intros Hc. split.
  - apply propagates_in_cell.
    exact (proj1 (Forall_forall _ _) cells_propagate c Hc).
  - apply propagates_run_from, cells_propagate.
Qed.

Lemma failures_propagate_witness :
  let st := fresh_kernel (Host.clean (Some 1%nat)) in
  let c := cell_install (RT := Host.runtime) in
  (in_cell 0 c st).1 = Raised (Thrown "RuntimeError") ∧
  ∃ seg, trace (in_cell 0 c st).2 = seg ++ trace st ∧
         ends_as (in_cell 0 c st).1 seg.
Proof.
  intros st c. split; [vm_compute; reflexivity |].
  apply (proj1 (failures_propagate c 0 (list_elem_of_here _ _)) st).
Defined.

(** A cell that did catch would not pass: [propagates] is not a property of
    every computation. *)
Example caught_failure_does_not_propagate :
  ¬ propagates
      (try_except (ask (RT := Host.runtime) (RImport "transformers"))
                  (fun _ => ret VNone)).
Proof.
  intros H.
  set (m := try_except _ _) in H.
  set (st := fresh_kernel (Exn := string) (Host.clean (Some 0%nat))).
  destruct (H st) as (seg & Ht & He).
  assert (Hr : (m st).1 = Ok VNone) by (vm_compute; reflexivity).
  assert (Hs : trace (m st).2 =
               [(0%nat, EServe (RImport "transformers") (inl "RuntimeError"))])
    by (vm_compute; reflexivity).
  rewrite Hr in He. rewrite Hs in Ht. cbn in Ht, He.
  rewrite app_nil_r in Ht. subst seg.
  apply Forall_cons_1 in He as [He _]. discriminate He.
Qed.

(** C7, as stated, fails: the install cell commands the host directly, and
    on the stand-in host, whose working directory starts empty, the run
    leaves [requirements.txt] on disk. *)
Lemma install_cell_writes_requirements :
  ¬ no_host_command (trace demo_run.2) ∧
  Host.disk (Host.clean None) = [] ∧
  Host.disk (world demo_run.2) = ["requirements.txt"].
Proof.
  split; [| split; vm_compute; reflexivity].
  intros H.
  specialize (H 0%nat (RShell wget_command) (inr (VInt 0))).
  discriminate H.
  apply (list_elem_of_lookup_2 _ 78). vm_compute. reflexivity.
Qed.

(** C7, amended: the only steps that act on the host directly are the two
    commands of the install cell, [wget] of [requirements.txt] and
    [pip install]; and every step of a run is one of [steps], the closed
    list of what the notebook's text asks for cell by cell.  So after cell 0
    a step is an import of one of four libraries, an attribute read, a
    subscription, an iteration, a formatting, or a call by one of the
    listed names with the listed keywords: a request to the Python runtime
    or to the libraries, never a statement of the notebook's own that opens,
    writes or removes a file or reaches outside the session. *)
Theorem host_commands_only_in_install_cell
    {World Exn} {RT : Runtime World Exn} (w : World) post ce past :
  trace (run_all w).2 = post ++ ce :: past →
  host_commands_in_install ce ∧ step_as_written ce.
Proof.
  intros Ht. split.
  - by destruct (run_wellformed w _ _ _ Ht) as (_ & H & _).
  - by destruct (run_consistent w _ _ _ Ht)
      as (_ & _ & _ & _ & _ & _ & _ & _ & H).
Qed.

Lemma host_commands_only_in_install_cell_witness :
  let ce : nat * event string :=
    (0%nat, EServe (RShell wget_command) (inr (VInt 0))) in
  host_commands_in_install ce ∧ step_as_written ce.
Proof.
  apply (host_commands_only_in_install_cell (RT := Host.runtime)
           (Host.clean None) (take 78 (trace demo_run.2)) _ []).
  vm_compute. reflexivity.
Defined.

(** C8, as stated, fails: cell 2 reads the handle [tokenizer], which no
    cell strictly above it assigns (cell 2 itself does, on its first
    line). *)
Lemma tokenizer_is_loaded_in_its_own_cell :
  ¬ assigned_strictly_above (accesses demo_run.2).
Proof.
  intros H.
  destruct (H 2%nat "tokenizer") as (c' & Hlt & Hin).
  - apply list_elem_of_here.
  - apply (list_elem_of_lookup_2 _ 119). vm_compute. reflexivity.
  - assert (Hc : c' = 0%nat ∨ c' = 1%nat) by lia.
    revert Hin. destruct Hc as [-> | ->];
      apply (bool_decide_unpack (_ ∉ _)); vm_compute; exact I.
Qed.

(** C8, amended: every session variable a cell reads -- every model,
    tokenizer and pipeline handle among them -- was assigned before that
    read, by a cell above or earlier in the same cell; so a top-to-bottom
    run never stops on an unbound name. *)
Theorem names_are_bound_before_use
    {World Exn} {RT : Runtime World Exn} (w : World) :
  (∀ x, (run_all w).1 ≠ Raised (NameError x)) ∧
  ∀ post ca before,
    accesses (run_all w).2 = post ++ ca :: before →
    bound_before_use before ca.
Proof.
  destruct (run_is_sound w) as [[_ Hacc] Hne]. split; [exact Hne |].
  intros post ca before Ha.
  exact (each_split _ _ _ _ _ (bound_before_use_b_sound _ Hacc) Ha).
Qed.

Lemma names_are_bound_before_use_witness :
  bound_before_use (drop 120 (accesses demo_run.2)) (2%nat, ALoad "tokenizer").
Proof.
  apply (proj2 (names_are_bound_before_use (RT := Host.runtime)
                  (Host.clean None))
               (take 119 (accesses demo_run.2))).
  vm_compute. reflexivity.
Defined.

(** C9: Every model handed to [show], and every attention structure handed
    to [model_view], comes from a model loaded with
    [output_attentions=True]; the attention structures are taken from the
    output of a forward pass of that model ([outputs[-1]] for BERT, the
    encoder, decoder and cross attention fields for T5). *)
Theorem views_show_attention_of_their_model
    {World Exn} {RT : Runtime World Exn} (w : World) post c ev past :
  trace (run_all w).2 = post ++ (c, ev) :: past →
  attention_sourced past ev.
Proof.
  intros Ht. by destruct (run_wellformed w _ _ _ Ht) as (_ & _ & H & _).
Qed.

Lemma views_show_attention_of_their_model_witness :
  attention_sourced (drop 1 (trace demo_run.2))
    (EServe
       (RCall "model_view" (VObj 7) []
          [Kw "encoder_attention" (VObj 66); Kw "decoder_attention" (VObj 67);
           Kw "cross_attention" (VObj 68); Kw "encoder_tokens" (VObj 63);
           Kw "decoder_tokens" (VObj 65)])
       (inr (VObj 69))).
Proof.
  apply (views_show_attention_of_their_model (RT := Host.runtime)
           (Host.clean None) [] 10%nat).
  vm_compute. reflexivity.
Defined.

(** C10: The token labels passed to [model_view] are the result of
    [convert_ids_to_tokens] on the first row of the very inputs that went
    through the forward pass whose attentions are shown. *)
Theorem view_labels_match_forward_inputs
    {World Exn} {RT : Runtime World Exn} (w : World) post c ev past :
  trace (run_all w).2 = post ++ (c, ev) :: past →
  labels_match past ev.
Proof.
  intros Ht. by destruct (run_wellformed w _ _ _ Ht) as (_ & _ & _ & H).
Qed.

Lemma view_labels_match_forward_inputs_witness :
  labels_match (drop 30 (trace demo_run.2))
    (EServe (RCall "model_view" (VObj 7) [VObj 38; VObj 40] [])
            (inr (VObj 41))).
Proof.
  apply (view_labels_match_forward_inputs (RT := Host.runtime)
           (Host.clean None) (take 29 (trace demo_run.2)) 6%nat).
  vm_compute. reflexivity.
Defined.


(** * Footprints of the cells

    Each cell is run on a session whose variables [E] are unknown: a name
    the cell has assigned is found among its assignments, any other name is
    looked up in [E], and the run splits on whether [E] binds it. *)

Section Footprints.
Context {World Exn : Type} {RT : Runtime World Exn}.
#[local] Abbreviation M := (M World Exn).
#[local] Abbreviation state := (state World Exn).

(** Looking a name up: the newest assignment to it, else what [E] holds. *)
Lemma overlay_lookup l (E : gmap string value) x :
  overlay l E !! x =
  match find_in l x with Some v => Some v | None => E !! x end.
Proof.
  induction l as [| [k v] rest IH]; cbn; [done |].
  destruct (String.eqb_spec k x) as [-> | Hne].
  - apply lookup_insert_eq.
  - by rewrite lookup_insert_ne.
Qed.

Lemma find_in_key l x v : find_in l x = Some v → x ∈ l.*1.
Proof.
  induction l as [| [k w] rest IH]; cbn; [done |].
  destruct (String.eqb_spec k x) as [-> | Hne]; intros H.
  - apply list_elem_of_here.
  - apply list_elem_of_further, IH, H.
Qed.

Lemma wp_load_over x l (E : gmap string value) o1 o2 b
      (K : value → state → Prop) F w c t a :
  find_in l x = o1 → E !! x = o2 → is_builtin x = b →
  (let st' := mkState (overlay l E) w c t ((c, ALoad x) :: a) in
   match o1, o2 with
   | Some v, _ | None, Some v => K v st'
   | None, None => if b then K (VBuiltin x) st' else F (NameError x) st'
   end) →
  wp (load x) K F (mkState (overlay l E) w c t a).
Proof.
  intros <- <- <-. unfold wp, load, note; cbn.
  rewrite overlay_lookup.
  by destruct (find_in l x), (E !! x), (is_builtin x).
Qed.

Lemma wp_store_over x v l (E : gmap string value)
      (K : unit → state → Prop) F w c t a :
  K tt (mkState (overlay ((x, v) :: l) E) w c t ((c, AStore x) :: a)) →
  wp (store x v) K F (mkState (overlay l E) w c t a).
Proof. done. Qed.

(** Assignments to names of [X] change nothing outside [X] and unbind
    nothing. *)
Lemma same_outside_overlay X l E w c t a w' c' t' a' :
  forallb (fun k => bool_decide (k ∈ X)) l.*1 = true →
  same_outside X (mkState E w c t a : state)
               (mkState (overlay l E) w' c' t' a') ∧
  nothing_unbound (mkState E w c t a : state)
                  (mkState (overlay l E) w' c' t' a').
Proof.
  intros Hl. split; intros x Hx; cbn in *; rewrite overlay_lookup.
  - destruct (find_in l x) as [v |] eqn:Hf; [| done].
    destruct Hx. apply find_in_key in Hf.
    rewrite forallb_forall in Hl.
    apply (bool_decide_eq_true_1 _), Hl, list_elem_of_In, Hf.
  - by destruct (find_in l x).
Qed.

Lemma bound_overlay X l E w c t a :
  forallb (fun x => bool_decide (is_Some (find_in l x))) X = true →
  bound X (mkState (overlay l E) w c t a : state).
Proof.
  intros HX. apply Forall_forall. intros x Hx. cbn. rewrite overlay_lookup.
  rewrite forallb_forall in HX.
  apply list_elem_of_In, HX, (bool_decide_eq_true_1 _) in Hx.
  destruct Hx as [v ->]. by exists v.
Qed.

End Footprints.

(** One step on a session of unknown variables.  A name the cell has not
    assigned is looked up in [E]: once its binding, or its absence, is among
    the hypotheses it is taken from there, otherwise the run splits. *)
Ltac fp_load_known x l E b o1 :=
  lazymatch goal with
  | H : E !! x = ?o2 |- _ =>
      apply (wp_load_over x l E o1 o2 b);
      [ vm_compute; reflexivity | exact H | vm_compute; reflexivity
      | cbv beta iota zeta ]
  end.

Ltac fp_load x l E :=
  let o1 := eval vm_compute in (find_in l x) in
  let b := eval vm_compute in (is_builtin x) in
  lazymatch o1 with
  | Some _ =>
      apply (wp_load_over x l E o1 (E !! x) b);
      [ vm_compute; reflexivity | reflexivity | vm_compute; reflexivity
      | cbv beta iota zeta ]
  | None =>
      first [ fp_load_known x l E b o1
            | let H := fresh "Hx" in
              destruct (E !! x) as [?v |] eqn:H; fp_load_known x l E b o1 ]
  end.

Ltac fp_step :=
  lazymatch goal with
  | |- wp (store _ _) _ _ _ => apply wp_store_over; cbv beta iota
  | |- wp (load ?x) _ _ (mkState (overlay ?l ?E) _ _ _ _) => fp_load x l E
  | |- wp _ _ _ _ => wp_step idtac idtac
  end.

(** Where a cell stops: the assignments made are compared with the cell's
    row of the table. *)
Ltac fp_bound :=
  lazymatch goal with
  | |- bound (needs ?i) ?st =>
      let X := eval vm_compute in (needs i) in
      change (Forall (fun x => is_Some (env st !! x)) X); cbn [env]
  end;
  repeat lazymatch goal with
         | |- Forall _ [] => apply Forall_nil_2
         | |- Forall _ (_ :: _) => apply Forall_cons_2; [by eexists |]
         end.

Ltac fp_leaf :=
  lazymatch goal with
  | |- (same_outside _ _ _ ∧ _) ∧ bound _ _ ∧ bound _ _ =>
      split; [apply same_outside_overlay; vm_compute; reflexivity |];
      split; [apply bound_overlay; vm_compute; reflexivity | fp_bound]
  | |- (same_outside _ _ _ ∧ _) ∧ ∀ _, Thrown _ = NameError _ → _ =>
      split; [apply same_outside_overlay; vm_compute; reflexivity |];
      intros ? ?; discriminate
  | |- (same_outside _ _ _ ∧ _) ∧ ∀ _, NameError _ = NameError _ → _ =>
      split; [apply same_outside_overlay; vm_compute; reflexivity |];
      let H := fresh in
      intros ? H; injection H as <-;
      split; [apply (bool_decide_unpack _); vm_compute; exact I | assumption]
  end.

Ltac footprint_of_cell :=
  let st := fresh "st" in
  intros st; destruct st as [E w c t a];
  lazymatch goal with
  | |- wp ?m ?K ?F _ => change (wp m K F (mkState (overlay [] E) w c t a))
  end;
  repeat lazymatch goal with
         | |- wp _ _ _ _ => fp_step
         | |- _ => progress fp_leaf
         end.

(** Do [tac] for every cell [c] that [Hc : notebook !! i = Some c] can
    name. *)
Ltac for_every_cell i Hc tac :=
  destruct i as [| i]; cbn in Hc;
  [ injection Hc as <-; tac
  | first [ discriminate Hc | for_every_cell i Hc tac ] ].

(** Every cell keeps to its row of [footprints], from any session and
    against any runtime. *)
Lemma cells_keep_footprints {World Exn} {RT : Runtime World Exn} i c :
  notebook (RT := RT) !! i = Some c → keeps_footprint i c.
Proof.
  intros Hc. unfold notebook in Hc.
  for_every_cell i Hc footprint_of_cell.
Qed.

Section Dependencies.
Context {World Exn : Type} {RT : Runtime World Exn}.
#[local] Abbreviation M := (M World Exn).
#[local] Abbreviation state := (state World Exn).

(** X1: A cell run on a session that binds the names its row of
    [footprints] lists as needed never stops on an unbound name, whatever
    the session otherwise holds and whatever the runtime answers; and when
    the cell returns, the names its row lists as written are bound. *)
Theorem cell_runs_when_needs_bound (i : nat) (c : M value) (st : state) :
  notebook !! i = Some c → bound (needs i) st →
  (∀ x, (in_cell i c st).1 ≠ Raised (NameError x)) ∧
  (∀ v, (in_cell i c st).1 = Ok v → bound (writes i) (in_cell i c st).2).
Proof.
  intros Hc Hb. pose proof (cells_keep_footprints i c Hc st) as H.
  unfold wp in H. destruct (in_cell i c st) as [[v | err] st']; cbn.
  - split; [discriminate | intros _ _; apply H].
  - split; [| discriminate]. intros x [= ->].
    destruct H as [_ H]. destruct (H x eq_refl) as [Hx Hnone].
    apply (proj1 (Forall_forall _ _) Hb) in Hx. rewrite Hnone in Hx.
    by destruct Hx.
Qed.

(** X2: The needed names of [footprints] are all needed: a cell run on a
    session that leaves one of them unbound does not return, it raises; and
    whenever a cell stops on an unbound name, that name is one its row
    lists as needed and the session did not bind it. *)
Theorem cell_stops_when_need_unbound (i : nat) (c : M value) (st : state)
    (x : string) :
  notebook !! i = Some c → x ∈ needs i → env st !! x = None →
  ∃ err, (in_cell i c st).1 = Raised err ∧
         ∀ y, err = NameError y → y ∈ needs i ∧ env st !! y = None.
Proof.
  intros Hc Hx Hnone. pose proof (cells_keep_footprints i c Hc st) as H.
  unfold wp in H. destruct (in_cell i c st) as [[v | err] st']; cbn.
  - destruct H as (_ & _ & Hb).
    apply (proj1 (Forall_forall _ _) Hb) in Hx. rewrite Hnone in Hx.
    by destruct Hx.
  - exists err. split; [done | apply H].
Qed.

Lemma record_input_shell_only (text : string) :
  shell_only (record_input text : state → state).
Proof.
  intros st x Hx. cbn. apply lookup_insert_ne. by intros <-.
Qed.

Lemma show_output_shell_only (r : result Exn value) :
  shell_only (show_output r : state → state).
Proof.
  intros st x Hx. destruct r as [[] | err]; cbn; try done;
    apply lookup_insert_ne; by intros <-.
Qed.

(** X3: A cell changes no session variable other than those its row of
    [footprints] lists as written and the shell's own ([_], [_i],
    [_exit_code], [In], [Out] and the like): whatever the shell does to its
    variables around the cell, every other name is bound to the same value,
    or unbound, after the cell as before it -- whether the cell returns or
    raises, and whatever the runtime answers. *)
Theorem cell_changes_only_its_writes (i : nat) (c : M value) (st : state)
    (before : state → state) (after : result Exn value → state → state)
    (x : string) :
  notebook !! i = Some c →
  shell_only before → (∀ r, shell_only (after r)) →
  x ∉ writes i → shell_name x = false →
  env (in_shell before after i c st).2 !! x = env st !! x.
Proof.
  intros Hc Hbefore Hafter Hx Hsh.
  pose proof (cells_keep_footprints i c Hc (before st)) as H.
  unfold wp in H. unfold in_shell.
  destruct (in_cell i c (before st)) as [[v | err] st']; cbn;
    rewrite (Hafter _ st' x Hsh), <- (Hbefore st x Hsh); by apply H.
Qed.

(** The table has a row for every cell and no other. *)
Lemma writes_out_of_range (i : nat) :
  notebook (RT := RT) !! i = None → writes i = [].
Proof.
  intros H. apply lookup_ge_None in H. unfold writes.
  rewrite (proj2 (lookup_ge_None footprints i)); [done | exact H].
Qed.

Lemma bound_after_cell (i : nat) (known : list string) (st st' : state) :
  bound known st → same_outside (writes i) st st' → bound (writes i) st' →
  bound (writes i ++ known) st'.
Proof.
  intros Hk Hsame Hw. apply Forall_app. split; [exact Hw |].
  apply Forall_forall. intros x Hx.
  destruct (decide (x ∈ writes i)) as [Hin | Hout].
  - exact (proj1 (Forall_forall _ _) Hw x Hin).
  - rewrite (Hsame x Hout). exact (proj1 (Forall_forall _ _) Hk x Hx).
Qed.

Lemma bound_perm (X Y : list string) (st : state) :
  (∀ x, x ∈ Y → x ∈ X) → bound X st → bound Y st.
Proof.
  intros HXY HX. apply Forall_forall. intros x Hx.
  exact (proj1 (Forall_forall _ _) HX x (HXY x Hx)).
Qed.

(** X4: Cells may be run in any order, skipped and repeated: as long as
    every cell of the order finds the names it needs among those known to
    be bound at the start and those written by the cells before it in the
    order ([runnable]), the run never stops on an unbound name, and when it
    completes, all those names are bound. *)
Theorem runnable_order_never_unbound (order : list nat)
    (known : list string) (st : state) :
  runnable known order = true → bound known st →
  (∀ x, (run_cells order st).1 ≠ Raised (NameError x)) ∧
  (∀ vs, (run_cells order st).1 = Ok vs →
         bound (assigned order ++ known) (run_cells order st).2).
Proof.
  revert known st.
  induction order as [| i rest IH]; intros known st Hrun Hk; cbn.
  - split; [discriminate | intros _ _; exact Hk].
  - cbn in Hrun. apply andb_true_iff in Hrun as [Hneeds Hrest].
    destruct (notebook !! i) as [c |] eqn:Hc.
    + pose proof (cells_keep_footprints i c Hc st) as H.
      unfold wp in H. unfold bind.
      destruct (in_cell i c st) as [[v | err] st1].
      * destruct H as ((Hsame & _) & Hw & _).
        destruct (IH _ st1 Hrest (bound_after_cell i known st st1 Hk Hsame Hw))
          as [Hne Hb].
        destruct (run_cells rest st1) as [[vs | err] st2]; cbn in *.
        -- split; [discriminate |]. intros _ _.
           apply (bound_perm (assigned rest ++ writes i ++ known));
             [| by apply (Hb vs)].
           intros x. rewrite !elem_of_app. tauto.
        -- split; [| discriminate]. intros x [= ->]. by apply (Hne x).
      * cbn. split; [| discriminate]. intros x [= ->].
        destruct H as [_ H]. destruct (H x eq_refl) as [Hx Hnone].
        rewrite forallb_forall in Hneeds.
        apply list_elem_of_In, Hneeds, (bool_decide_eq_true_1 _) in Hx.
        apply (proj1 (Forall_forall _ _) Hk) in Hx. rewrite Hnone in Hx.
        by destruct Hx.
    + rewrite (writes_out_of_range i Hc) in *. cbn in *.
      by apply IH.
Qed.


End Dependencies.

Lemma cell_runs_when_needs_bound_witness :
  let st :=
    session_with {[ "t5_tokenizer" := VObj 0; "t5_model" := VObj 1 ]} in
  let c := cell_summarise (RT := Host.runtime) in
  (∀ x, (in_cell 9 c st).1 ≠ Raised (NameError x)) ∧
  (∀ v, (in_cell 9 c st).1 = Ok v → bound (writes 9) (in_cell 9 c st).2).
Proof.
  intros st c. apply (cell_runs_when_needs_bound (RT := Host.runtime) 9 c st).
  - reflexivity.
  - apply (bool_decide_unpack _). vm_compute. exact I.
Defined.

Lemma cell_stops_when_need_unbound_witness :
  let st := session_with {[ "tokenizer" := VObj 0; "sentence_a" := VStr "a";
                            "model_view" := VObj 1 ]} in
  let c := cell_two_sentences (RT := Host.runtime) in
  ∃ err, (in_cell 7 c st).1 = Raised err ∧
         ∀ y, err = NameError y → y ∈ needs 7 ∧ env st !! y = None.
Proof.
  intros st c.
  apply (cell_stops_when_need_unbound (RT := Host.runtime) 7 c st "model").
  - reflexivity.
  - apply (bool_decide_unpack _). vm_compute. exact I.
  - vm_compute. reflexivity.
Defined.

Lemma cell_changes_only_its_writes_witness :
  let st := session_with {[ "pipeline" := VObj 0;
                            "model_version" := VStr "bert-base-cased";
                            "tokenizer" := VObj 1;
                            "test_string" := VStr "WANDISCO" ]} in
  let c := cell_unmask (RT := Host.runtime) in
  let run := in_shell (record_input "unmasker = ...") show_output 3 c st in
  env run.2 !! "tokenizer" = env st !! "tokenizer" ∧
  env run.2 !! "_" ≠ env st !! "_".
Proof.
  intros st c run. split; [| vm_compute; discriminate].
  apply (cell_changes_only_its_writes (RT := Host.runtime) 3 c st
           (record_input "unmasker = ...") show_output "tokenizer").
  - reflexivity.
  - apply record_input_shell_only.
  - apply show_output_shell_only.
  - apply (bool_decide_unpack _). vm_compute. exact I.
  - reflexivity.
Defined.

Lemma runnable_order_never_unbound_witness :
  let st := fresh_kernel (Exn := string) (Host.clean None) in
  let run := run_cells (RT := Host.runtime) [1; 8; 10; 9; 8]%nat st in
  (∀ x, run.1 ≠ Raised (NameError x)) ∧
  (∀ vs, run.1 = Ok vs →
         bound (assigned [1; 8; 10; 9; 8]%nat ++ []) run.2).
Proof.
  intros st run.
  apply (runnable_order_never_unbound (RT := Host.runtime)
           [1; 8; 10; 9; 8]%nat [] st).
  - vm_compute. reflexivity.
  - apply Forall_nil_2.
Defined.


(** * Provenance: the theorems *)

(** X5: In a top-to-bottom run, whatever is handed to a model went through
    the tokenizer that belongs to it: the neuron view gets a model and a
    tokenizer, and every forward pass and every [generate] gets encodings
    made by a tokenizer, such that model and tokenizer were loaded with
    [from_pretrained] from the same checkpoint name, by a model class and
    the tokenizer class imported from the same library. *)
Theorem models_meet_their_tokenizers
    {World Exn} {RT : Runtime World Exn} (w : World) post c ev past :
  trace (run_all w).2 = post ++ (c, ev) :: past →
  model_meets_its_tokenizer past ev.
Proof. intros Ht. by destruct (run_consistent w _ _ _ Ht) as (H & _). Qed.

Lemma models_meet_their_tokenizers_witness :
  model_meets_its_tokenizer (drop 9 (trace demo_run.2))
    (EServe
       (RCall "t5_model" (VObj 49) []
          [Kw "input_ids" (VObj 58); Kw "decoder_input_ids" (VObj 60)])
       (inr (VObj 61))).
Proof.
  apply (models_meet_their_tokenizers (RT := Host.runtime)
           (Host.clean None) (take 8 (trace demo_run.2)) 10%nat).
  vm_compute. reflexivity.
Defined.

(** X6: In a top-to-bottom run, ids are turned back into text by the
    tokenizer that produced them: [convert_ids_to_tokens] is called on the
    tokenizer whose encoding the ids are (or are the first row of), and
    [batch_decode] on the tokenizer whose encoding of the prompt was given
    to the [generate] call that produced the ids. *)
Theorem ids_decoded_by_their_encoder
    {World Exn} {RT : Runtime World Exn} (w : World) post c ev past :
  trace (run_all w).2 = post ++ (c, ev) :: past →
  decoded_by_encoder past ev.
Proof.
  intros Ht. by destruct (run_consistent w _ _ _ Ht) as (_ & H & _).
Qed.

Lemma ids_decoded_by_their_encoder_witness :
  decoded_by_encoder (drop 17 (trace demo_run.2))
    (EServe (RMethod (VObj 50) "batch_decode" [VObj 52] [])
            (inr (VObj 53))).
Proof.
  apply (ids_decoded_by_their_encoder (RT := Host.runtime)
           (Host.clean None) (take 16 (trace demo_run.2)) 8%nat).
  vm_compute. reflexivity.
Defined.

(** X7: In a top-to-bottom run, a call by a global name reaches what the
    notebook bound to that name: [print] is the builtin; [pipeline], [show]
    and [model_view] are the functions the imports cell took from
    [transformers], [bertviz.neuron_view] and [bertviz]; [unmasker] is the
    fill-mask pipeline for [bert-base-cased]; [model], [t5_tokenizer] and
    [t5_model] are what [from_pretrained] of the matching [transformers]
    class returned.  No other name is called ([head_view] is imported and
    never used), and [from_pretrained] is only sent to imported classes. *)
Theorem calls_reach_what_was_bound
    {World Exn} {RT : Runtime World Exn} (w : World) post c ev past :
  trace (run_all w).2 = post ++ (c, ev) :: past →
  callee_as_bound past ev.
Proof.
  intros Ht. by destruct (run_consistent w _ _ _ Ht) as (_ & _ & H & _).
Qed.

Lemma calls_reach_what_was_bound_witness :
  callee_as_bound (drop 22 (trace demo_run.2))
    (EServe (RCall "model_view" (VObj 7) [VObj 44; VObj 46] [])
            (inr (VObj 48))).
Proof.
  apply (calls_reach_what_was_bound (RT := Host.runtime)
           (Host.clean None) (take 21 (trace demo_run.2)) 7%nat).
  vm_compute. reflexivity.
Defined.

(** X8: In a top-to-bottom run, every call of the fill-mask pipeline is
    given exactly one positional argument and no keyword: a string in which
    the mask token [[MASK]] occurs exactly once. *)
Theorem fill_mask_inputs_have_one_mask
    {World Exn} {RT : Runtime World Exn} (w : World) post c ev past :
  trace (run_all w).2 = post ++ (c, ev) :: past → one_mask ev.
Proof.
  intros Ht. by destruct (run_consistent w _ _ _ Ht) as (_ & _ & _ & H & _).
Qed.

Lemma fill_mask_inputs_have_one_mask_witness :
  one_mask
    (EServe (RCall "unmasker" (VObj 19) [VStr "The man worked as a [MASK]."] [])
            (inr (VObj 21)) : event string).
Proof.
  apply (fill_mask_inputs_have_one_mask (RT := Host.runtime)
           (Host.clean None) (take 51 (trace demo_run.2)) 4%nat _
           (drop 52 (trace demo_run.2))).
  vm_compute. reflexivity.
Defined.

(** X9: In a top-to-bottom run, models, tokenizers and pipelines are loaded
    only by cells 2, 3, 5 and 6 (code cells counted from 0), which name the
    checkpoint [bert-base-cased], and by cell 8, which names [t5-small];
    cells 4, 7, 9 and 10 load nothing and work with the handles they
    find. *)
Theorem loads_only_where_written
    {World Exn} {RT : Runtime World Exn} (w : World) post ce past :
  trace (run_all w).2 = post ++ ce :: past → loads_where_written ce.
Proof.
  intros Ht.
  by destruct (run_consistent w _ _ _ Ht) as (_ & _ & _ & _ & H & _).
Qed.

Lemma loads_only_where_written_witness :
  loads_where_written
    (8%nat,
     EServe
       (RMethod (VObj 2) "from_pretrained" [VStr "t5-small"]
          [Kw "model_max_length" (VInt 512)])
       (inr (VObj 50)) : event string).
Proof.
  apply (loads_only_where_written (RT := Host.runtime)
           (Host.clean None) (take 19 (trace demo_run.2)) _
           (drop 20 (trace demo_run.2))).
  vm_compute. reflexivity.
Defined.

(** X10: In a top-to-bottom run, the list that cell 4 formats into each of
    its two messages is built from the pipeline's answer: the answer of an
    [unmasker] call is iterated, and the list has exactly one entry per
    item the iteration yielded, in order, each entry being what
    [item["token_str"]] returned. *)
Theorem printed_predictions_are_listed
    {World Exn} {RT : Runtime World Exn} (w : World) post ce past :
  trace (run_all w).2 = post ++ ce :: past → predictions_listed past ce.
Proof.
  intros Ht.
  by destruct (run_consistent w _ _ _ Ht) as (_ & _ & _ & _ & _ & H & _).
Qed.

Lemma printed_predictions_are_listed_witness :
  predictions_listed (drop 42 (trace demo_run.2))
    (4%nat, EFormat (VList [VObj 29; VObj 30]) (inr "<object>")).
Proof.
  apply (printed_predictions_are_listed (RT := Host.runtime)
           (Host.clean None) (take 41 (trace demo_run.2))).
  vm_compute. reflexivity.
Defined.

(** X11: In a top-to-bottom run, every [from_pretrained] and [pipeline]
    call comes after [utils.logging.set_verbosity_error()] has returned,
    [utils] being the one imported from [transformers]: nothing is loaded
    before the library's logging has been set to errors only. *)
Theorem logging_is_quiet_before_loads
    {World Exn} {RT : Runtime World Exn} (w : World) post c ev past :
  trace (run_all w).2 = post ++ (c, ev) :: past →
  quiet_before_load past ev.
Proof.
  intros Ht.
  by destruct (run_consistent w _ _ _ Ht) as (_ & _ & _ & _ & _ & _ & H & _).
Qed.

Lemma logging_is_quiet_before_loads_witness :
  quiet_before_load (drop 61 (trace demo_run.2))
    (EServe
       (RMethod (VObj 2) "from_pretrained" [VStr "bert-base-cased"] [])
       (inr (VObj 16))).
Proof.
  apply (logging_is_quiet_before_loads (RT := Host.runtime)
           (Host.clean None) (take 60 (trace demo_run.2)) 2%nat).
  vm_compute. reflexivity.
Defined.

(** X12: In a top-to-bottom run, every [print] gets one argument and no
    keyword, and the argument is what its statement says: a label followed
    by the text of a value formatted in the same cell -- after [IDS: ] the
    ids that [encode] returned for [WANDISCO], after [Tokens: ] the tokens
    of those ids, after [Male predictions: ] and [Female predictions: ] the
    list built from the pipeline's answer for the sentence about the man
    and about the woman -- or, in cell 7, the tokens joined by spaces. *)
Theorem prints_say_what_they_announce
    {World Exn} {RT : Runtime World Exn} (w : World) post ce past :
  trace (run_all w).2 = post ++ ce :: past → printed_as_written past ce.
Proof.
  intros Ht.
  by destruct (run_consistent w _ _ _ Ht)
    as (_ & _ & _ & _ & _ & _ & _ & H & _).
Qed.

Lemma prints_say_what_they_announce_witness :
  printed_as_written (drop 41 (trace demo_run.2))
    (4%nat,
     EServe
       (RCall "print" (VBuiltin "print")
          [VStr "Female predictions: <object>"] [])
       (inr VNone)).
Proof.
  apply (prints_say_what_they_announce (RT := Host.runtime)
           (Host.clean None) (take 40 (trace demo_run.2))).
  vm_compute. reflexivity.
Defined.
